(** * portfolio_resume_ai_agent.py: the resume synchronisation agent

    A shallow embedding of [src/portfolio_resume_ai_agent.py] and the
    properties its specification states about the response cache, the
    completion client and the update flow.

    Conventions.
    - A Python [str] is the list of its code points ([N]); a [bytes]
      value and the content of a file on disk is a list of octets ([Z]).
    - The functions of the program keep their names.  What the program
      gets from outside (the file system, the operator's terminal, the
      environment, the completion endpoint) is a field of [world]; the
      libraries whose internals the program does not fix ([os.path.join],
      the permissive decoder behind [read_file], [PyPDF2], the [json]
      codec of the cache file) are the operations of class [Libraries].
    - A run is a function from the world before to its result, the world
      after and the log of the calls it made. *)

From Stdlib Require Import ZArith NArith Lia List Ascii String Bool.
From stdpp Require Import base option list sorting gmap.
Import ListNotations.

Set Warnings "-register-all".
Local Open Scope Z_scope.

(* ===================================================================== *)
(** ** Python text *)
(* ===================================================================== *)

Module Py.

(** A [str]: its code points, in order. *)
Definition str : Type := list N.

(** A [bytes] value: its octets, in order. *)
Definition bytes : Type := list Z.

(** The [str] of an ASCII literal. *)
Definition lit (s : string) : str := map N_of_ascii (list_ascii_of_string s).
Arguments lit s%_string.

(** [len(s)] *)
Definition len (s : str) : Z := Z.of_nat (length s).

(** [s[:n]] and [s[n:]] for an index [n >= 0]. *)
Definition upto (n : Z) (s : str) : str := take (Z.to_nat n) s.
Definition from (n : Z) (s : str) : str := drop (Z.to_nat n) s.

(** [str.isspace] on one code point: the white space [str.strip] removes. *)
Definition isspace (c : N) : bool :=
  ((9 <=? c) && (c <=? 13) || (28 <=? c) && (c <=? 32)
   || (c =? 133) || (c =? 160) || (c =? 5760)
   || (8192 <=? c) && (c <=? 8202)
   || (c =? 8232) || (c =? 8233) || (c =? 8239) || (c =? 8287)
   || (c =? 12288))%N.

Fixpoint lstrip (s : str) : str :=
  match s with
  | c :: t => if isspace c then lstrip t else s
  | [] => []
  end.

Definition rstrip (s : str) : str := rev (lstrip (rev s)).

(** [s.strip()] *)
Definition strip (s : str) : str := rstrip (lstrip s).

(** The lower-case form of one code point.  ASCII capitals map to their
    small letters; U+0130 (capital I with dot above) is the one code point
    whose lower-case form is two code points long, U+0069 U+0307; U+212A
    (Kelvin sign) maps to ASCII k.  Every other cased letter outside ASCII
    maps to one code point outside ASCII: it is left in place here, which
    changes neither lengths nor the occurrences of an ASCII text. *)
Definition lower_char (c : N) : list N :=
  (if (65 <=? c) && (c <=? 90) then [c + 32]
   else if c =? 304 then [105; 775]
   else if c =? 8490 then [107]
   else [c])%N.

(** [s.lower()] *)
Definition lower (s : str) : str := flat_map lower_char s.

(** [s.startswith(p)] *)
Fixpoint startswith (p s : str) : bool :=
  match p, s with
  | [], _ => true
  | _ :: _, [] => false
  | a :: p', b :: s' => (a =? b)%N && startswith p' s'
  end.

(** The search of [s.find(sub)], where [s] is what is left to scan and [i]
    the index of its first character: the least index of an occurrence,
    [-1] when there is none. *)
Fixpoint find_from (sub s : str) (i : Z) : Z :=
  if startswith sub s then i
  else match s with
       | [] => -1
       | _ :: t => find_from sub t (i + 1)
       end.

(** [s.find(sub)] *)
Definition find (sub s : str) : Z := find_from sub s 0.

(** [sub in s] *)
Definition contains (sub s : str) : bool := negb (find sub s =? -1).

(** [s.count(c)] for a one-character [c]. *)
Definition count (c : N) (s : str) : Z :=
  Z.of_nat (length (filter (fun x => x = c) s)).

(** [sep.join(parts)] *)
Fixpoint join (sep : str) (parts : list str) : str :=
  match parts with
  | [] => []
  | [p] => p
  | p :: rest => p ++ sep ++ join sep rest
  end.

(** [a == b] on [str]. *)
Definition eqb (a b : str) : bool := bool_decide (a = b).

End Py.

Import Py.

(* ===================================================================== *)
(** ** [str.encode("utf-8")] and [hashlib.sha256] *)
(* ===================================================================== *)

Module Utf8.

(** The UTF-8 octets of one code point; a surrogate (U+D800..U+DFFF) has
    none, and [encode] raises [UnicodeEncodeError] on it. *)
Definition encode_char (c : N) : option bytes :=
  let z := Z.of_N c in
  if z <? 0x80 then Some [z]
  else if z <? 0x800 then
    Some [Z.lor 0xC0 (Z.shiftr z 6); Z.lor 0x80 (Z.land z 0x3F)]
  else if z <? 0x10000 then
    if (0xD800 <=? z) && (z <=? 0xDFFF) then None
    else Some [Z.lor 0xE0 (Z.shiftr z 12);
               Z.lor 0x80 (Z.land (Z.shiftr z 6) 0x3F);
               Z.lor 0x80 (Z.land z 0x3F)]
  else if z <? 0x110000 then
    Some [Z.lor 0xF0 (Z.shiftr z 18);
          Z.lor 0x80 (Z.land (Z.shiftr z 12) 0x3F);
          Z.lor 0x80 (Z.land (Z.shiftr z 6) 0x3F);
          Z.lor 0x80 (Z.land z 0x3F)]
  else None.

(** [s.encode("utf-8")]: [None] stands for [UnicodeEncodeError]. *)
Fixpoint encode (s : str) : option bytes :=
  match s with
  | [] => Some []
  | c :: t =>
      match encode_char c, encode t with
      | Some b, Some r => Some (b ++ r)
      | _, _ => None
      end
  end.

End Utf8.

Module Sha256.

Definition w32 (x : Z) : Z := x mod 2 ^ 32.
Definition add32 (a b : Z) : Z := w32 (a + b).
Definition rotr (n x : Z) : Z :=
  Z.lor (Z.shiftr x n) (w32 (Z.shiftl x (32 - n))).
Definition not32 (x : Z) : Z := Z.lxor x 0xffffffff.

Definition Ch (e f g : Z) : Z := Z.lxor (Z.land e f) (Z.land (not32 e) g).
Definition Maj (a b c : Z) : Z :=
  Z.lxor (Z.lxor (Z.land a b) (Z.land a c)) (Z.land b c).
Definition Sigma0 (a : Z) : Z := Z.lxor (Z.lxor (rotr 2 a) (rotr 13 a)) (rotr 22 a).
Definition Sigma1 (e : Z) : Z := Z.lxor (Z.lxor (rotr 6 e) (rotr 11 e)) (rotr 25 e).
Definition sigma0 (x : Z) : Z := Z.lxor (Z.lxor (rotr 7 x) (rotr 18 x)) (Z.shiftr x 3).
Definition sigma1 (x : Z) : Z := Z.lxor (Z.lxor (rotr 17 x) (rotr 19 x)) (Z.shiftr x 10).

(** The first primes. *)
Definition is_prime (n : Z) : bool :=
  forallb (fun d => negb (n mod d =? 0)) (seqZ 2 (n - 2)).

Definition primes (count : nat) : list Z :=
  take count (List.filter is_prime (seqZ 2 400)).

(** The integer [k]-th root of [x], bit by bit from bit [bit] down. *)
Fixpoint iroot (k : Z) (bit : nat) (x r : Z) : Z :=
  match bit with
  | O => r
  | S b =>
      let c := Z.lor r (2 ^ Z.of_nat b) in
      iroot k b x (if c ^ k <=? x then c else r)
  end.

(** The first 32 bits of the fractional part of the [k]-th root of [p]. *)
Definition frac32 (k p : Z) : Z := w32 (iroot k 40 (p * 2 ^ (32 * k)) 0).

(** The round constants: from the cube roots of the first 64 primes. *)
Definition K : list Z := Eval vm_compute in map (frac32 3) (primes 64).

(** The initial hash value: from the square roots of the first 8 primes. *)
Definition H0 : list Z := Eval vm_compute in map (frac32 2) (primes 8).

(** Big-endian octets of a word, and back. *)
Fixpoint be_bytes (n : nat) (x : Z) : bytes :=
  match n with
  | O => []
  | S m => Z.land (Z.shiftr x (8 * Z.of_nat m)) 0xff :: be_bytes m x
  end.

Definition be_word (b : bytes) : Z :=
  fold_left (fun acc x => Z.lor (Z.shiftl acc 8) x) b 0.

(** The message followed by the bit 1, zeros up to 56 modulo 64 octets,
    and its length in bits on 8 octets. *)
Definition pad (m : bytes) : bytes :=
  let l := Z.of_nat (length m) in
  m ++ [0x80] ++ repeat 0 (Z.to_nat ((55 - l) mod 64)) ++ be_bytes 8 (8 * l).

Fixpoint words (n : nat) (b : bytes) : list Z :=
  match n with
  | O => []
  | S m => be_word (take 4 b) :: words m (drop 4 b)
  end.

(** The message schedule, most recent word first. *)
Fixpoint schedule (n : nat) (w : list Z) : list Z :=
  match n with
  | O => w
  | S m =>
      let x := add32 (add32 (sigma1 (nth 1 w 0)) (nth 6 w 0))
                     (add32 (sigma0 (nth 14 w 0)) (nth 15 w 0)) in
      schedule m (x :: w)
  end.

Definition round (s : list Z) (kw : Z * Z) : list Z :=
  match s with
  | [a; b; c; d; e; f; g; h] =>
      let t1 := add32 (add32 (add32 h (Sigma1 e)) (add32 (Ch e f g) (fst kw)))
                      (snd kw) in
      let t2 := add32 (Sigma0 a) (Maj a b c) in
      [add32 t1 t2; a; b; c; add32 d t1; e; f; g]
  | _ => s
  end.

Definition compress (h : list Z) (block : bytes) : list Z :=
  let w := rev (schedule 48 (rev (words 16 block))) in
  zip_with add32 h (fold_left round (zip K w) h).

Fixpoint blocks (n : nat) (h : list Z) (m : bytes) : list Z :=
  match n with
  | O => h
  | S k => blocks k (compress h (take 64 m)) (drop 64 m)
  end.

(** [hashlib.sha256(m).digest()] *)
Definition digest (m : bytes) : bytes :=
  let p := pad m in
  flat_map (be_bytes 4) (blocks (length p / 64) H0 p).

Definition hex_digit (d : Z) : N :=
  Z.to_N (if d <? 10 then 48 + d else 87 + d).

(** [hashlib.sha256(m).hexdigest()] *)
Definition hexdigest (m : bytes) : str :=
  flat_map (fun b => [hex_digit (Z.shiftr b 4); hex_digit (Z.land b 15)])
           (digest m).

End Sha256.

(* ===================================================================== *)
(** ** [json]: values, and [json.dumps] of a message list *)
(* ===================================================================== *)

Module Json.

(** What [json.load] can return, with a number kept as its lexeme. *)
Inductive value : Type :=
| Null
| Bool (b : bool)
| Num (lexeme : str)
| Str (s : str)
| Arr (items : list value)
| Obj (items : list (str * value)).

(** A [dict] from [str] to [str]: its items in insertion order. *)
Definition strdict : Type := list (str * str).

Definition hex_digit (d : N) : N := (if d <? 10 then 48 + d else 87 + d)%N.

(** One character inside a JSON string under [ensure_ascii=False]: the
    quote, the backslash and the control characters are escaped, all else
    is written as it is. *)
Definition escape_char (c : N) : str :=
  (if c =? 34 then lit "\" ++ [34]
   else if c =? 92 then lit "\\"
   else if c =? 10 then lit "\n"
   else if c =? 13 then lit "\r"
   else if c =? 9 then lit "\t"
   else if c =? 8 then lit "\b"
   else if c =? 12 then lit "\f"
   else if c <? 32 then lit "\u00" ++ [hex_digit (c / 16); hex_digit (c mod 16)]
   else [c])%N.

Definition quote (s : str) : str := [34%N] ++ flat_map escape_char s ++ [34%N].

(** [a <= b] on [str]: code point by code point. *)
Fixpoint str_leb (a b : str) : bool :=
  match a, b with
  | [], _ => true
  | _ :: _, [] => false
  | x :: a', y :: b' => (x <? y)%N || ((x =? y)%N && str_leb a' b')
  end.

(** [a <= b] on the items of a dict, compared as tuples. *)
Definition item_leb (a b : str * str) : bool :=
  if bool_decide (a.1 = b.1) then str_leb a.2 b.2 else str_leb a.1 b.1.

Fixpoint insert_item (x : str * str) (l : strdict) : strdict :=
  match l with
  | [] => [x]
  | y :: t => if item_leb x y then x :: l else y :: insert_item x t
  end.

(** [sorted(d.items())] *)
Definition sorted_items (d : strdict) : strdict := foldr insert_item [] d.

Definition dumps_item (kv : str * str) : str :=
  quote kv.1 ++ lit ": " ++ quote kv.2.

(** [json.dumps(d, sort_keys=True, ensure_ascii=False)] for one dict. *)
Definition dumps_dict (d : strdict) : str :=
  lit "{" ++ join (lit ", ") (map dumps_item (sorted_items d)) ++ lit "}".

(** [json.dumps(messages, sort_keys=True, ensure_ascii=False)] *)
Definition dumps_sorted (messages : list strdict) : str :=
  lit "[" ++ join (lit ", ") (map dumps_dict messages) ++ lit "]".

End Json.

(* ===================================================================== *)
(** ** CONFIG *)
(* ===================================================================== *)

Definition dq : str := [34%N].
Definition nl : str := [10%N].

Definition MODEL_WAIT_SECONDS : Z := 15.
Definition BACKUP_SUFFIX : str := lit ".bak_aiagent".
Definition CACHE_FILENAME : str := lit ".resume_ai_cache.json".
Definition PDF_RELATIVE_PATH : str := lit "assets\resume\Mohammad_Burhan_Resume.pdf".
Definition MODEL_ID : str := lit "openrouter/meta-llama/llama-3.3-70b-instruct:free".

(* ===================================================================== *)
(** ** PROMPTS *)
(* ===================================================================== *)

Definition system_prompt : str :=
  lit "You are a Senior Staff Software Engineer tasked with synchronizing an HTML resume page with a PDF resume.

CRITICAL RULES:
1. Preserve EXACT HTML structure, CSS classes, IDs, and formatting
2. Update text content ONLY - never modify HTML tags, attributes, or layout
3. Match sections semantically (Experience, Skills, Projects, Education, etc.)
4. For entities in both HTML and PDF: update HTML content to match PDF
5. For entities only in PDF: add them to appropriate sections
6. For entities only in HTML: keep them unchanged (DO NOT DELETE)
7. Maintain chronological order where applicable
8. Keep all original HTML comments and conditional code
9. Return the FULL, complete HTML file - not just changes

PRIORITY SECTIONS TO SYNC:
1. Summary/Introduction (resume-intro section)
2. Work Experiences (work-section)
3. Technical Skills (skills-section > Technical)
4. Projects (project-section)
5. Certifications (education-section for awards)
6. Languages
7. Education
8. Interests
9. Professional Skills (skills-section > Professional)

HTML STRUCTURE PRESERVATION:
- Keep all <div>, <section>, <ul>, <li> with same classes/IDs
- Maintain same number of columns and layout
- Preserve all social links, navigation, headers, footers
- Keep all script and style tags exactly as-is
- Maintain dark mode toggle and configuration panel".

Definition user_prompt_task : str :=
  lit "TASK: Synchronize the HTML resume content with the PDF resume content.

PDF RESUME (SOURCE OF TRUTH):
".

Definition user_prompt_file : str :=
  lit "
CURRENT HTML FILE (".

Definition user_prompt_content : str :=
  lit "):
".

Definition user_prompt_updates : str :=
  lit "


SPECIFIC UPDATES REQUIRED (based on manual analysis):

1. SUMMARY/RESUME-INTRO:
   - Update to match PDF summary exactly
   - Should mention " ++ dq ++
  lit "5 years of experience" ++ dq ++
  lit " and backend-first systems

2. WORK EXPERIENCES (Chronological order):
   a) Alogonox Technologies (August 2024 - Present)
      - Update title to " ++ dq ++
  lit "Software Engineer" ++ dq ++
  lit "
      - Add all bullet points from PDF
      
   b) Seewise.ai (September 2023 - April 2024)  
      - Update title to " ++ dq ++
  lit "Software Development Engineer" ++ dq ++
  lit "
      - Add all bullet points from PDF
      
   c) Codent Software Solutions (2021 - 2023)
      - Keep but update end date to 2023
      - Update bullets from original HTML
      
   d) Headrun (February 2020 - July 2020)
      - Update location to " ++ dq ++
  lit "Vijayawada, INDIA" ++ dq ++
  lit "
      - Use bullet points from PDF

3. TECHNICAL SKILLS:
   - Reorganize to match PDF: Languages, Backend and APIs, Frontend, Databases, Cloud & DevOps, Testing & Quality, Architecture, Security & Auth
   - Include all skills from PDF: Python, JavaScript, SQL, Django, FastAPI, PostgreSQL, AWS, React.js, etc.
   - Keep HTML structure but update list items

4. PROJECTS SECTION:
   - Replace with PDF projects: AI Resume Parser, Real-time Video Call Platforms, Django/React Apps
   - Add " ++ dq ++
  lit "Technical Expertise" ++ dq ++
  lit " subsection as in PDF
   - Remove old detailed project lists, keep only what's in PDF

5. CERTIFICATIONS:
   - Update order to match PDF: Full Stack, Career Essentials, Programming in Python
   - Fix spelling of " ++ dq ++
  lit "Coursera" ++ dq ++
  lit "

6. LANGUAGES:
   - Update order: Telugu, Hindi, English, Tamil, Urdu
   - Update proficiency levels to match PDF

7. EDUCATION:
   - Add " ++ dq ++
  lit "PRIST University" ++ dq ++
  lit " as institution

8. INTERESTS:
   - Update to: Tech Operations, Conducting Workshops, Basketball, Fitness, Travelling

9. TAGLINE:
   - Update to: " ++ dq ++
  lit "Software Engineer (Backend - Python, Django, FastAPI, PostgreSQL, AWS)" ++ dq ++
  lit "

10. PORTFOLIO URL:
    - Update to: " ++ dq ++
  lit "burhanmohammad.github.io" ++ dq ++
  lit "

IMPORTANT: Preserve ALL HTML structure, classes, IDs, and formatting. Only update text content.
Return the COMPLETE updated HTML file.".

Definition message : Type := Json.strdict.

Definition build_resume_update_messages
    (html_path html_content pdf_text : str) : list message :=
  [ [ (lit "role", lit "system"); (lit "content", system_prompt) ];
    [ (lit "role", lit "user");
      (lit "content",
       user_prompt_task ++ pdf_text ++ user_prompt_file ++ html_path
       ++ user_prompt_content ++ html_content ++ user_prompt_updates) ] ].

(** The cache key of a request, lines 90 and 91 of [cached_generate]:
    the SHA-256 hex digest of the UTF-8 octets of its sorted-keys dump.
    [None] when the dump cannot be encoded. *)
Definition fingerprint (messages : list message) : option str :=
  Sha256.hexdigest <$> Utf8.encode (Json.dumps_sorted messages).

(* ===================================================================== *)
(** ** The world of a run *)
(* ===================================================================== *)

(** What [completion] does on one call. *)
Inductive exn : Type :=
| APIError                                  (* litellm.exceptions.APIError *)
| RemoteError                               (* any other exception of the call *)
| KeyNotSet                                 (* RuntimeError of get_api_key *)
| LLMFailed (last_error : option exn)       (* RuntimeError of generate_response *)
| UnicodeEncodeError
| TypeError
| AttributeError
| EOFError
| KeyError
| FileNotFoundError (path : str)
| PdfReadError.

Inductive reply : Type :=
| Content (text : option str)               (* resp.choices[0].message.content *)
| Raises (e : exn).

(** The lines the program prints, by their place in the source. *)
Inductive printed : Type :=
| LlmRetry (attempt : Z)
| HtmlNotFound (path : str)
| PdfNotFound (path : str)
| ReadingHtml (path : str)
| ReadingPdf (path : str)
| PdfLength (n : Z)
| HtmlLength (n : Z)
| Sending
| Generating
| NoDoctype
| FoundHtmlAt (position : Z)
| NotValidHtml
| First500
| Text (s : str)
| PreviewHeader
| VeryShort (n : Z)
| NameMissing
| TitleMissing
| BackupCreated (path : str)
| Synchronized
| LinesChanged (before after : Z)
| CompaniesAdded
| EducationUpdated
| UpdateCancelled.

Inductive prompt : Type :=
| AskNewBackup                              (* Backup exists. Create new backup? *)
| AskApply.                                 (* Apply FULL HTML update? *)

(** The calls a run makes on the outside, in order. *)
Inductive event : Type :=
| Printed (m : printed)
| Slept (seconds : Z)
| Called (messages : list message) (r : reply)
| Asked (p : prompt) (answer : str)
| Opened (path : str)
| Dumped (cache : Json.value)
| Copied (src dst : str)
| Wrote (path : str) (content : str).

(** The outside: the regular files by path, the lines the operator will
    type, the key in the environment, and the endpoint, which answers its
    [n]-th call on a request with [endpoint n request]. *)
Record world : Type := World {
  files : gmap str bytes;
  stdin : list str;
  api_key : option str;
  endpoint : nat -> list message -> reply;
  calls : nat
}.

Definition with_files (f : gmap str bytes) (w : world) : world :=
  World f (stdin w) (api_key w) (endpoint w) (calls w).

Inductive result (A : Type) : Type :=
| Ok (a : A)
| Raise (e : exn).
Arguments Ok {A} a.
Arguments Raise {A} e.

(** A computation: from the world before to the result, the world after
    and the log of the calls made. *)
Definition M (A : Type) : Type := world -> result A * world * list event.

Definition ret {A} (a : A) : M A := fun w => (Ok a, w, []).
Definition raise {A} (e : exn) : M A := fun w => (Raise e, w, []).

Definition bind {A B} (m : M A) (f : A -> M B) : M B := fun w =>
  match m w with
  | (Ok a, w1, l1) =>
      match f a w1 with
      | (r, w2, l2) => (r, w2, l1 ++ l2)
      end
  | (Raise e, w1, l1) => (Raise e, w1, l1)
  end.

(** [try: m] with the exception, if any, handed to the handler. *)
Definition try_ {A} (m : M A) : M (result A) := fun w =>
  match m w with
  | (r, w1, l1) => (Ok r, w1, l1)
  end.

Definition emit (e : event) : M unit := fun w => (Ok tt, w, [e]).
Definition get : M world := fun w => (Ok w, w, []).
Definition put (w : world) : M unit := fun _ => (Ok tt, w, []).

#[global] Instance M_ret : MRet M := @ret.
#[global] Instance M_bind : MBind M := fun A B f m => bind m f.

Definition print (m : printed) : M unit := emit (Printed m).
Definition sleep (seconds : Z) : M unit := emit (Slept seconds).

(** [os.path.exists(path)] *)
Definition exists_ (path : str) : M bool :=
  w ← get; ret (bool_decide (is_Some (files w !! path))).

(** [input(prompt)]: the next line typed, [EOFError] when there is none. *)
Definition input (p : prompt) : M str :=
  w ← get;
  match stdin w with
  | [] => raise EOFError
  | line :: rest =>
      put (World (files w) rest (api_key w) (endpoint w) (calls w));;
      emit (Asked p line);;
      ret line
  end.

(** [completion(model=MODEL_ID, messages=messages, ...)] *)
Definition completion (messages : list message) : M (option str) :=
  w ← get;
  let r := endpoint w (calls w) messages in
  put (World (files w) (stdin w) (api_key w) (endpoint w) (S (calls w)));;
  emit (Called messages r);;
  match r with
  | Content text => ret text
  | Raises e => raise e
  end.

(** The libraries whose results the program takes as they come. *)
Class Libraries : Type := {
  (** [os.path.join] *)
  path_join : str -> str -> str;
  (** what text mode with [encoding="utf-8", errors="replace"] reads *)
  decode_replace : bytes -> str;
  (** [PyPDF2.PdfReader]: the [extract_text()] of each page, [None] when
      the file cannot be read as a PDF *)
  pdf_pages : bytes -> option (list (option str));
  (** [json.load] of a file: [None] when decoding or parsing raises *)
  json_load : bytes -> option Json.value;
  (** the octets [json.dump(cache, f, indent=2)] writes *)
  json_dump : Json.value -> bytes
}.

(* ===================================================================== *)
(** ** The program *)
(* ===================================================================== *)

Definition lift {A} (r : result A) : M A := fun w => (r, w, []).

(** A Python value that is a [str] or [None]. *)
Definition py_text (text : option str) : Json.value :=
  match text with
  | Some s => Json.Str s
  | None => Json.Null
  end.

(** [key in cache] *)
Definition contains_key (key : str) (cache : Json.value) : result bool :=
  match cache with
  | Json.Obj items => Ok (bool_decide (key ∈ items.*1))
  | Json.Arr items =>
      Ok (existsb (fun v => match v with
                            | Json.Str s => Py.eqb s key
                            | _ => false
                            end) items)
  | Json.Str s => Ok (contains key s)
  | _ => Raise TypeError
  end.

(** [cache[key]] *)
Definition getitem (cache : Json.value) (key : str) : result Json.value :=
  match cache with
  | Json.Obj items =>
      match list_find (fun kv => kv.1 = key) items with
      | Some (_, kv) => Ok kv.2
      | None => Raise KeyError
      end
  | _ => Raise TypeError
  end.

(** [d[key] = v] on the items of a dict: a known key keeps its place, a
    new one goes last. *)
Fixpoint dict_set (key : str) (v : Json.value) (items : list (str * Json.value))
    : list (str * Json.value) :=
  match items with
  | [] => [(key, v)]
  | kv :: rest =>
      if bool_decide (kv.1 = key) then (key, v) :: rest
      else kv :: dict_set key v rest
  end.

(** [cache[key] = v] *)
Definition setitem (cache : Json.value) (key : str) (v : Json.value)
    : result Json.value :=
  match cache with
  | Json.Obj items => Ok (Json.Obj (dict_set key v items))
  | _ => Raise TypeError
  end.

(** [v.strip()] on what [cached_generate] returned. *)
Definition strip_value (v : Json.value) : result str :=
  match v with
  | Json.Str s => Ok (strip s)
  | _ => Raise AttributeError
  end.

(** [a.strip().lower() == "y"] *)
Definition says_yes (answer : str) : bool := Py.eqb (lower (strip answer)) (lit "y").

(** Where a run of [update_resume_flow] returns. *)
Inductive abort : Type :=
| NoHtmlFile                                (* line 247 *)
| NoPdfFile                                 (* line 250 *)
| Unrecognized (output : str).              (* line 280 *)

Inductive outcome : Type :=
| Aborted (why : abort)
| Cancelled (candidate : str)               (* line 321 *)
| Done (written : str).                     (* line 318 *)

(** Where lines 242 to 266 leave the flow. *)
Inductive generated : Type :=
| Stop (o : outcome)
| Candidate (html_path html_content updated_html : str).

Definition when (b : bool) (m : M unit) : M unit := if b then m else ret tt.

Section Agent.
Context `{Libraries}.

(** *** LLM (litellm) *)

(** Line 47 of the source leaves the right-hand side out; the key is the
    one of the environment. *)
Definition get_api_key : M str :=
  w ← get;
  match api_key w with
  | Some k => if bool_decide (k = []) then raise KeyNotSet else ret k
  | None => raise KeyNotSet
  end.

(** The [for attempt in ...] loop of [generate_response] over the attempt
    numbers still to come. *)
Fixpoint attempts (messages : list message) (todo : list Z)
    (last_error : option exn) : M Json.value :=
  match todo with
  | [] => raise (LLMFailed last_error)
  | attempt :: rest =>
      r ← try_ (_ ← get_api_key; completion messages);
      match r with
      | Ok text => ret (py_text text)
      | Raise APIError =>
          print (LlmRetry attempt);;
          sleep (3 * attempt);;
          attempts messages rest (Some APIError)
      | Raise e => raise (LLMFailed (Some e))
      end
  end.

Definition generate_response (messages : list message) (retries : Z)
    : M Json.value :=
  attempts messages (seqZ 1 retries) None.

(** *** DETERMINISTIC CACHE *)

Definition _load_cache : M Json.value :=
  w ← get;
  match files w !! CACHE_FILENAME with
  | Some b =>
      emit (Opened CACHE_FILENAME);;
      match json_load b with
      | Some cache => ret cache
      | None => ret (Json.Obj [])
      end
  | None => ret (Json.Obj [])
  end.

Definition _save_cache (cache : Json.value) : M unit :=
  w ← get;
  emit (Dumped cache);;
  put (with_files (<[CACHE_FILENAME := json_dump cache]> (files w)) w).

Definition cached_generate (messages : list message) : M Json.value :=
  match fingerprint messages with
  | None => raise UnicodeEncodeError
  | Some key =>
      cache ← _load_cache;
      hit ← lift (contains_key key cache);
      if hit : bool then lift (getitem cache key)
      else
        resp ← generate_response messages 3;
        cache' ← lift (setitem cache key resp);
        _save_cache cache';;
        ret resp
  end.

(** *** FILE UTILITIES *)

Definition backup_file (path : str) : M str :=
  let backup := path ++ BACKUP_SUFFIX in
  w ← get;
  match files w !! path with
  | Some b =>
      emit (Copied path backup);;
      put (with_files (<[backup := b]> (files w)) w);;
      ret backup
  | None => raise (FileNotFoundError path)
  end.

Definition read_file (path : str) : M str :=
  w ← get;
  match files w !! path with
  | Some b => emit (Opened path);; ret (decode_replace b)
  | None => raise (FileNotFoundError path)
  end.

(** Opening for writing empties the file; a text that cannot be encoded
    then raises and leaves it empty. *)
Definition write_file (path content : str) : M unit :=
  w ← get;
  emit (Wrote path content);;
  match Utf8.encode content with
  | Some b => put (with_files (<[path := b]> (files w)) w)
  | None =>
      put (with_files (<[path := []]> (files w)) w);;
      raise UnicodeEncodeError
  end.

(** *** PDF EXTRACTION *)

Definition extract_pdf_text (pdf_path : str) : M str :=
  w ← get;
  match files w !! pdf_path with
  | Some b =>
      emit (Opened pdf_path);;
      match pdf_pages b with
      | Some pages => ret (strip (join nl (map (default []) pages)))
      | None => raise PdfReadError
      end
  | None => raise (FileNotFoundError pdf_path)
  end.

(** *** UPDATE FLOW *)

(** Lines 242 to 266: from the two paths to the stripped response. *)
Definition generate_candidate (root html_rel_path : str) : M generated :=
  let html_path := path_join root html_rel_path in
  let pdf_path := path_join root PDF_RELATIVE_PATH in
  html_exists ← exists_ html_path;
  if negb html_exists then
    print (HtmlNotFound html_path);;
    ret (Stop (Aborted NoHtmlFile))
  else
  pdf_exists ← exists_ pdf_path;
  if negb pdf_exists then
    print (PdfNotFound pdf_path);;
    ret (Stop (Aborted NoPdfFile))
  else
  print (ReadingHtml html_path);;
  html_content ← read_file html_path;
  print (ReadingPdf pdf_path);;
  pdf_text ← extract_pdf_text pdf_path;
  print (PdfLength (len pdf_text));;
  print (HtmlLength (len html_content));;
  print Sending;;
  let messages := build_resume_update_messages html_path html_content pdf_text in
  sleep MODEL_WAIT_SECONDS;;
  print Generating;;
  resp ← cached_generate messages;
  updated_html ← lift (strip_value resp);
  ret (Candidate html_path html_content updated_html).

(** Lines 268 to 280: the text to go on with, [None] at the [return] of
    line 280. *)
Definition validate (updated_html : str) : M (option str) :=
  if negb (contains (lit "<!DOCTYPE html>") (lower (upto 100 updated_html)))
     && negb (contains (lit "<html") (lower (upto 200 updated_html)))
  then
    print NoDoctype;;
    let html_start := find (lit "<html") (lower updated_html) in
    if html_start >? 0 then
      print (FoundHtmlAt html_start);;
      ret (Some (from html_start updated_html))
    else
      print NotValidHtml;;
      print First500;;
      print (Text (upto 500 updated_html));;
      ret None
  else ret (Some updated_html).

(** Lines 282 to 294: the preview and the warnings. *)
Definition preview (updated_html : str) : M unit :=
  print PreviewHeader;;
  print (Text (upto 1000 updated_html));;
  when (len updated_html <? 5000) (print (VeryShort (len updated_html)));;
  when (negb (contains (lit "Mohammad Burhan") updated_html)) (print NameMissing);;
  when (negb (contains (lit "Software Engineer") updated_html)) (print TitleMissing).

(** Lines 302 to 318: the branch of the operator's yes. *)
Definition apply_update (backup_needed : bool)
    (html_path html_content updated_html : str) : M outcome :=
  when backup_needed
    (backup ← backup_file html_path; print (BackupCreated backup));;
  write_file html_path updated_html;;
  print Synchronized;;
  let original_lines := count 10 html_content in
  let updated_lines := count 10 updated_html in
  print (LinesChanged original_lines updated_lines);;
  when (contains (lit "Alogonox") updated_html
        && contains (lit "Seewise.ai") updated_html) (print CompaniesAdded);;
  when (contains (lit "PRIST University") updated_html) (print EducationUpdated);;
  ret (Done updated_html).

(** Lines 296 to 321: backup and apply. *)
Definition backup_and_apply (html_path html_content updated_html : str)
    : M outcome :=
  backup_exists ← exists_ (html_path ++ BACKUP_SUFFIX);
  backup_needed ←
    (if backup_exists : bool then
       answer ← input AskNewBackup; ret (says_yes answer)
     else ret true);
  answer ← input AskApply;
  if says_yes answer then
    apply_update backup_needed html_path html_content updated_html
  else
    print UpdateCancelled;;
    ret (Cancelled updated_html).

(** Lines 268 to 321: from the stripped response on. *)
Definition review_and_apply (html_path html_content updated_html : str)
    : M outcome :=
  v ← validate updated_html;
  match v with
  | Some updated_html =>
      preview updated_html;;
      backup_and_apply html_path html_content updated_html
  | None => ret (Aborted (Unrecognized updated_html))
  end.

Definition update_resume_flow (root html_rel_path : str) : M outcome :=
  g ← generate_candidate root html_rel_path;
  match g with
  | Stop o => ret o
  | Candidate html_path html_content updated_html =>
      review_and_apply html_path html_content updated_html
  end.

End Agent.

(* ===================================================================== *)
(** ** A small set of libraries to run the program on *)
(* ===================================================================== *)

(** Stand-ins for the libraries of class [Libraries], used to run the
    program on concrete worlds: POSIX [os.path.join] of a relative path, an
    ASCII decoder, a page reader for files that open with [%PDF] and hold
    their pages separated by form feeds, and a JSON reader and writer. *)
Module Demo.

Definition join_path (root rel : str) : str := root ++ lit "/" ++ rel.

Definition decode_ascii (b : bytes) : str :=
  map (fun z => if (0 <=? z) && (z <? 128) then Z.to_N z else 65533%N) b.

Fixpoint split_on (sep : Z) (b : bytes) (page : bytes) : list bytes :=
  match b with
  | [] => [rev page]
  | z :: t => if z =? sep then rev page :: split_on sep t []
              else split_on sep t (z :: page)
  end.

Definition read_pdf (b : bytes) : option (list (option str)) :=
  match b with
  | 37 :: 80 :: 68 :: 70 :: 10 :: body =>
      Some (map (fun p => Some (decode_ascii p)) (split_on 12 body []))
  | _ => None
  end.

Definition hex4 (c : N) : str :=
  lit "\u" ++ map (fun k => Json.hex_digit ((c / 16 ^ k) mod 16))%N [3; 2; 1; 0]%N.

(** One character inside a JSON string under [ensure_ascii=True]. *)
Definition escape_ascii (c : N) : str :=
  (if c =? 34 then lit "\" ++ [34]
   else if c =? 92 then lit "\\"
   else if c =? 10 then lit "\n"
   else if c =? 13 then lit "\r"
   else if c =? 9 then lit "\t"
   else if c =? 8 then lit "\b"
   else if c =? 12 then lit "\f"
   else if (32 <=? c) && (c <=? 126) then [c]
   else if c <? 65536 then hex4 c
   else hex4 (55296 + (c - 65536) / 1024) ++ hex4 (56320 + (c - 65536) mod 1024))%N.

Definition quote (s : str) : str := [34%N] ++ flat_map escape_ascii s ++ [34%N].

Definition indent (level : nat) : str := nl ++ repeat 32%N (2 * level).

(** [json.dumps(v, indent=2)] at a nesting level. *)
Fixpoint dumps (level : nat) (v : Json.value) : str :=
  match v with
  | Json.Null => lit "null"
  | Json.Bool true => lit "true"
  | Json.Bool false => lit "false"
  | Json.Num lexeme => lexeme
  | Json.Str s => quote s
  | Json.Arr [] => lit "[]"
  | Json.Arr items =>
      lit "[" ++ indent (S level)
      ++ join (lit "," ++ indent (S level)) (map (dumps (S level)) items)
      ++ indent level ++ lit "]"
  | Json.Obj [] => lit "{}"
  | Json.Obj items =>
      lit "{" ++ indent (S level)
      ++ join (lit "," ++ indent (S level))
           (map (fun kv : str * Json.value =>
                   quote kv.1 ++ lit ": " ++ dumps (S level) kv.2) items)
      ++ indent level ++ lit "}"
  end.

Definition write_json (v : Json.value) : bytes := map Z.of_N (dumps 0 v).

Definition is_ws (c : N) : bool := ((c =? 32) || (c =? 10) || (c =? 13) || (c =? 9))%N.

Fixpoint skip_ws (s : str) : str :=
  match s with
  | c :: t => if is_ws c then skip_ws t else s
  | [] => []
  end.

Definition hex_value (c : N) : option N :=
  (if (48 <=? c) && (c <=? 57) then Some (c - 48)
   else if (97 <=? c) && (c <=? 102) then Some (c - 87)
   else if (65 <=? c) && (c <=? 70) then Some (c - 55)
   else None)%N.

Definition read_hex4 (s : str) : option (N * str) :=
  match s with
  | a :: b :: c :: d :: t =>
      a ← hex_value a; b ← hex_value b; c ← hex_value c; d ← hex_value d;
      Some (((a * 16 + b) * 16 + c) * 16 + d, t)%N
  | _ => None
  end.

(** The rest of a JSON string after its opening quote. *)
Fixpoint read_string (fuel : nat) (s acc : str) : option (str * str) :=
  match fuel with
  | O => None
  | S fuel =>
      match s with
      | [] => None
      | 34%N :: t => Some (rev acc, t)
      | 92%N :: e :: t =>
          (if e =? 34 then read_string fuel t (34 :: acc)
           else if e =? 92 then read_string fuel t (92 :: acc)
           else if e =? 47 then read_string fuel t (47 :: acc)
           else if e =? 110 then read_string fuel t (10 :: acc)
           else if e =? 114 then read_string fuel t (13 :: acc)
           else if e =? 116 then read_string fuel t (9 :: acc)
           else if e =? 98 then read_string fuel t (8 :: acc)
           else if e =? 102 then read_string fuel t (12 :: acc)
           else if e =? 117 then
             match read_hex4 t with
             | Some (hi, t1) =>
                 match t1 with
                 | 92 :: 117 :: t2 =>
                     match read_hex4 t2 with
                     | Some (lo, t3) =>
                         if (55296 <=? hi) && (hi <? 56320)
                            && (56320 <=? lo) && (lo <? 57344)
                         then read_string fuel t3
                                (65536 + (hi - 55296) * 1024 + (lo - 56320) :: acc)
                         else read_string fuel t1 (hi :: acc)
                     | None => read_string fuel t1 (hi :: acc)
                     end
                 | _ => read_string fuel t1 (hi :: acc)
                 end
             | None => None
             end
           else None)%N
      | c :: t => if (c <? 32)%N then None else read_string fuel t (c :: acc)
      end
  end.

Definition is_num_char (c : N) : bool :=
  ((48 <=? c) && (c <=? 57) || (c =? 45) || (c =? 43) || (c =? 46)
   || (c =? 101) || (c =? 69))%N.

Fixpoint read_number (s acc : str) : str * str :=
  match s with
  | c :: t => if is_num_char c then read_number t (c :: acc) else (rev acc, s)
  | [] => (rev acc, [])
  end.

(** A JSON value at the head of a text, with the rest of the text. *)
Fixpoint read_value (fuel : nat) (s : str) : option (Json.value * str) :=
  match fuel with
  | O => None
  | S fuel =>
      let read_items := fix read_items (n : nat) (s : str) (acc : list Json.value)
          : option (Json.value * str) :=
        match n with
        | O => None
        | S n =>
            '(v, t) ← read_value fuel (skip_ws s);
            match skip_ws t with
            | 44%N :: t' => read_items n t' (v :: acc)
            | 93%N :: t' => Some (Json.Arr (rev (v :: acc)), t')
            | _ => None
            end
        end in
      let read_members := fix read_members (n : nat) (s : str)
          (acc : list (str * Json.value)) : option (Json.value * str) :=
        match n with
        | O => None
        | S n =>
            match skip_ws s with
            | 34%N :: t =>
                '(k, t1) ← read_string (length t) t [];
                match skip_ws t1 with
                | 58%N :: t2 =>
                    '(v, t3) ← read_value fuel (skip_ws t2);
                    match skip_ws t3 with
                    | 44%N :: t' => read_members n t' (dict_set k v acc)
                    | 125%N :: t' => Some (Json.Obj (dict_set k v acc), t')
                    | _ => None
                    end
                | _ => None
                end
            | _ => None
            end
        end in
      match s with
      | 34%N :: t => '(x, t') ← read_string (length t) t []; Some (Json.Str x, t')
      | 110%N :: 117%N :: 108%N :: 108%N :: t => Some (Json.Null, t)
      | 116%N :: 114%N :: 117%N :: 101%N :: t => Some (Json.Bool true, t)
      | 102%N :: 97%N :: 108%N :: 115%N :: 101%N :: t => Some (Json.Bool false, t)
      | 91%N :: t =>
          match skip_ws t with
          | 93%N :: t' => Some (Json.Arr [], t')
          | _ => read_items (length t) t []
          end
      | 123%N :: t =>
          match skip_ws t with
          | 125%N :: t' => Some (Json.Obj [], t')
          | _ => read_members (length t) t []
          end
      | c :: _ =>
          if is_num_char c && negb (c =? 43)%N && negb (c =? 46)%N
             && negb (c =? 101)%N && negb (c =? 69)%N
          then let '(lexeme, t) := read_number s [] in Some (Json.Num lexeme, t)
          else None
      | [] => None
      end
  end.

Definition read_json (b : bytes) : option Json.value :=
  if forallb (fun z => (0 <=? z) && (z <? 128)) b then
    let s := decode_ascii b in
    match read_value (S (length s)) (skip_ws s) with
    | Some (v, rest) =>
        match skip_ws rest with
        | [] => Some v
        | _ => None
        end
    | None => None
    end
  else None.

#[global] Instance libraries : Libraries := {
  path_join := join_path;
  decode_replace := decode_ascii;
  pdf_pages := read_pdf;
  json_load := read_json;
  json_dump := write_json
}.

End Demo.

(* ===================================================================== *)
(** ** Definitions for the statements *)
(* ===================================================================== *)

(** The world after one more call of the endpoint. *)
Definition called (w : world) : world :=
  World (files w) (stdin w) (api_key w) (endpoint w) (S (calls w)).

(** The delays of a log, in order. *)
Definition delays (l : list event) : list Z :=
  omap (fun e => match e with Slept s => Some s | _ => None end) l.

(** A computation stays inside a frame: whatever it returns, the worlds
    before and after are related by [R] and every logged call is [ok]. *)
Definition run_ok (R : relation world) (ok : event -> Prop) {A} (m : M A) : Prop :=
  forall w r w' l, m w = (r, w', l) -> R w w' /\ Forall ok l.

(** The frame of everything before the confirmation: no file but the
    cache table changes, nothing is written or copied by the flow itself,
    and the operator is not asked anything. *)
Definition off_cache (w w' : world) : Prop :=
  forall p, p <> CACHE_FILENAME -> files w' !! p = files w !! p.

Definition quiet (e : event) : Prop :=
  match e with
  | Wrote _ _ | Copied _ _ | Asked _ _ => False
  | _ => True
  end.

(** The frame of everything after the candidate: the endpoint is not
    called. *)
Definition same_calls (w w' : world) : Prop := calls w' = calls w.

Definition offline (e : event) : Prop :=
  match e with
  | Called _ _ => False
  | _ => True
  end.

(** The frame of the yes branch: the operator is not asked again. *)
Definition anywhere (w w' : world) : Prop := True.

Definition unasked (e : event) : Prop :=
  match e with
  | Asked _ _ => False
  | _ => True
  end.

(** Neither the target nor its backup is written. *)
Definition untouched (e : event) : Prop :=
  match e with
  | Wrote _ _ | Copied _ _ => False
  | _ => True
  end.

Definition printing (e : event) : Prop :=
  match e with
  | Printed _ => True
  | _ => False
  end.

(** The table [_load_cache] returns in a world, and what it logs. *)
Definition cache_of `{Libraries} (w : world) : Json.value :=
  match files w !! CACHE_FILENAME with
  | Some b => default (Json.Obj []) (json_load b)
  | None => Json.Obj []
  end.

Definition cache_opened (w : world) : list event :=
  match files w !! CACHE_FILENAME with
  | Some _ => [Opened CACHE_FILENAME]
  | None => []
  end.

(** The world with no cache file. *)
Definition without_cache (w : world) : world :=
  with_files (delete CACHE_FILENAME (files w)) w.

(** What [validate] answers and prints, as functions of the text. *)
Definition first_check_fails (u : str) : bool :=
  negb (contains (lit "<!DOCTYPE html>") (lower (upto 100 u)))
  && negb (contains (lit "<html") (lower (upto 200 u))).

Definition checked (u : str) : option str :=
  if first_check_fails u then
    if find (lit "<html") (lower u) >? 0
    then Some (from (find (lit "<html") (lower u)) u)
    else None
  else Some u.

Definition validate_log (u : str) : list event :=
  if first_check_fails u then
    if find (lit "<html") (lower u) >? 0
    then [Printed NoDoctype; Printed (FoundHtmlAt (find (lit "<html") (lower u)))]
    else [Printed NoDoctype; Printed NotValidHtml; Printed First500;
          Printed (Text (upto 500 u))]
  else [].

Definition preview_log (u : str) : list event :=
  [Printed PreviewHeader; Printed (Text (upto 1000 u))]
  ++ (if len u <? 5000 then [Printed (VeryShort (len u))] else [])
  ++ (if contains (lit "Mohammad Burhan") u then [] else [Printed NameMissing])
  ++ (if contains (lit "Software Engineer") u then [] else [Printed TitleMissing]).

Arguments validate_log : simpl never.
Arguments preview_log : simpl never.

(** What [generate_candidate] logs before it turns to the cache. *)
Definition reading_log (hp pp hc pt : str) : list event :=
  [Printed (ReadingHtml hp); Opened hp; Printed (ReadingPdf pp); Opened pp;
   Printed (PdfLength (len pt)); Printed (HtmlLength (len hc));
   Printed Sending; Slept MODEL_WAIT_SECONDS; Printed Generating].

(** The text [extract_pdf_text] makes of the pages. *)
Definition pdf_text_of (pages : list (option str)) : str :=
  strip (join nl (map (default []) pages)).

(** [a <= b] on the items of a dict, as a relation. *)
Definition item_le (a b : str * str) : Prop := Json.item_leb a b = true.

(* ===================================================================== *)
(** ** Worlds to run the program on *)
(* ===================================================================== *)

(** A project root with a page and the resume, an operator, a key and an
    endpoint, over the libraries of [Demo]. *)
Module Scene.

Definition octets (s : str) : bytes := map Z.of_N s.

Definition root : str := lit "site".
Definition page : str := lit "resume.html".
Definition html_path : str := Demo.join_path root page.
Definition pdf_path : str := Demo.join_path root PDF_RELATIVE_PATH.

Definition old_page : str := lit "<html><body>Mohammad Burhan</body></html>".
Definition pdf_text : str := lit "Mohammad Burhan" ++ nl ++ lit "Software Engineer".

Definition resume_pdf : bytes :=
  octets (lit "%PDF" ++ nl ++ lit "Mohammad Burhan" ++ [12%N] ++ lit "Software Engineer").

Definition disk : gmap str bytes :=
  <[html_path := octets old_page]> (<[pdf_path := resume_pdf]> ∅).

(** The request of a run on [disk], and its cache key. *)
Definition request : list message :=
  build_resume_update_messages html_path old_page pdf_text.

Definition request_key : str :=
  lit "0e982d32279612e7baa004ca5daad2bbcc88cd3f0dcd6c5bd5a6a622535d762b".

(** An endpoint that always answers [text]. *)
Definition answering (text : str) : nat -> list message -> reply :=
  fun _ _ => Content (Some text).

(** An endpoint that raises [APIError] twice, then answers [text]. *)
Definition flaky (text : str) : nat -> list message -> reply :=
  fun n _ =>
    match n with
    | 0%nat | 1%nat => Raises APIError
    | _ => Content (Some text)
    end.

Definition world_of (disk : gmap str bytes) (answers : list str)
    (endpoint : nat -> list message -> reply) : world :=
  World disk answers (Some (lit "sk-test")) endpoint 0.

(** The table with the answer to [request], the world after the miss that
    stored it, and the log of the run up to there. *)
Definition table (text : str) : Json.value :=
  Json.Obj [(request_key, Json.Str text)].

Definition after_miss (text : str) (w : world) : world :=
  with_files (<[CACHE_FILENAME := Demo.write_json (table text)]> (files w))
             (called w).

Definition miss_log (text : str) : list event :=
  reading_log html_path pdf_path old_page pdf_text
  ++ [Called request (Content (Some text)); Dumped (table text)].

(** The world once the operator's lines are read. *)
Definition answered (w : world) : world :=
  World (files w) [] (api_key w) (endpoint w) (calls w).

Definition new_page : str :=
  lit "<html><body>Mohammad Burhan, Software Engineer</body></html>".

(** A page that opens with a doctype and leaves the root tag out. *)
Definition doctype_page : str :=
  lit "<!DOCTYPE html>" ++ nl
  ++ lit "<head><title>Mohammad Burhan</title></head>" ++ nl
  ++ lit "<body><h1>Software Engineer</h1></body>".

(** A page after a preamble of 210 characters that holds U+0130 once. *)
Definition preamble_page : str :=
  [304%N] ++ lit "stanbul: " ++ repeat 45%N 200 ++ new_page.

Definition attribute_tail : str :=
  lit " lang=en><body>Mohammad Burhan, Software Engineer</body></html>".

(** A page with an attribute on its root tag, after a preamble of 205
    characters that holds U+0130 five times. *)
Definition attribute_page : str :=
  repeat 304%N 5 ++ repeat 45%N 200 ++ lit "<html" ++ attribute_tail.

Definition refusal : str := lit "I cannot help with that.".

Definition no_pdf_world : world :=
  world_of (<[html_path := octets old_page]> ∅) [] (answering new_page).

Definition broken_cache : bytes := octets (lit "{not json").

Definition broken_cache_world : world :=
  world_of (<[CACHE_FILENAME := broken_cache]> disk) [] (answering new_page).

End Scene.

(* ===================================================================== *)
(** ** More worlds *)
(* ===================================================================== *)

(** Small requests and tables, over the libraries of [Demo]. *)
Module Stage.

Import Scene.

(** A short request, and its cache key. *)
Definition ask : list message :=
  [[(lit "role", lit "user"); (lit "content", lit "resume")]].

Definition ask_key : str :=
  lit "d1a137122ce24b4a52520698cadaa4cc6a07f9df184c7c9eb789f1713b54e591".

(** The same request with the keys of its message set in the other order. *)
Definition ask_reordered : list message :=
  [[(lit "content", lit "resume"); (lit "role", lit "user")]].

(** A table with one entry under another key. *)
Definition other_entry : str * Json.value := (lit "k", Json.Str (lit "v")).

(** A disk whose cache file holds the JSON value [v]. *)
Definition disk_with (v : Json.value) : gmap str bytes :=
  <[CACHE_FILENAME := Demo.write_json v]> disk.

(** An endpoint that always raises [e]. *)
Definition failing (e : exn) : nat -> list message -> reply :=
  fun _ _ => Raises e.

(** A world with no key in the environment. *)
Definition keyless (w : world) : world :=
  World (files w) (stdin w) None (endpoint w) (calls w).

(** A page with a lone surrogate in its text. *)
Definition surrogate_page : str :=
  lit "<html><body>" ++ [55296%N] ++ lit "</body></html>".

(** A target whose text is not that of [old_page], and what it holds. *)
Definition plain_page : str := lit "<html><body>resume</body></html>".

(** The libraries of [Demo] with a reader of scanned files: each page is
    an image, with no text or a blank one. *)
Definition scanned : Libraries := {|
  path_join := Demo.join_path;
  decode_replace := Demo.decode_ascii;
  pdf_pages := fun _ => Some [None; Some (lit " "); None];
  json_load := Demo.read_json;
  json_dump := Demo.write_json
|}.

(** A disk whose PDF is not one. *)
Definition torn_disk : gmap str bytes :=
  <[pdf_path := octets (lit "not a pdf")]> disk.

(** A disk with an earlier backup of the target. *)
Definition backed_up_disk : gmap str bytes :=
  <[html_path ++ BACKUP_SUFFIX := octets plain_page]> disk.

End Stage.

(* ===================================================================== *)
(** ** More definitions for the statements *)
(* ===================================================================== *)

(** A page with no text, or with white space only. *)
Definition blank (page : option str) : Prop :=
  Forall (fun c => isspace c = true) (default [] page).

(** The frame of the apply stage: no file changes but the target and its
    backup, every write is to the target and every copy from the target to
    its backup, and the endpoint and the cache are left alone. *)
Definition beside (html_path : str) (w w' : world) : Prop :=
  forall p, p <> html_path -> p <> html_path ++ BACKUP_SUFFIX ->
            files w' !! p = files w !! p.

Definition on_target (html_path : str) (e : event) : Prop :=
  match e with
  | Wrote p _ => p = html_path
  | Copied src dst => src = html_path /\ dst = html_path ++ BACKUP_SUFFIX
  | Called _ _ | Dumped _ => False
  | _ => True
  end.

(** The frame of everything that does not read the operator's lines. *)
Definition same_input (w w' : world) : Prop := stdin w' = stdin w.

(** The lines the operator typed in a log, in order. *)
Definition answers (l : list event) : list str :=
  omap (fun e => match e with Asked _ a => Some a | _ => None end) l.

(** What the yes branch prints once the page is written: lines 307 to
    318. *)
Definition summary_log (html_content updated_html : str) : list event :=
  [Printed Synchronized;
   Printed (LinesChanged (count 10 html_content) (count 10 updated_html))]
  ++ (if contains (lit "Alogonox") updated_html
         && contains (lit "Seewise.ai") updated_html
      then [Printed CompaniesAdded] else [])
  ++ (if contains (lit "PRIST University") updated_html
      then [Printed EducationUpdated] else []).

Arguments summary_log : simpl never.

(** The frame of the operator's lines: they are read in order, none is
    put back. *)
Definition reads_on (w w' : world) : Prop := stdin w' `suffix_of` stdin w.

(* ===================================================================== *)
(** ** The command loop *)
(* ===================================================================== *)

(** [s.endswith(suffix)] *)
Definition endswith (suffix s : str) : bool := startswith (rev suffix) (rev s).

(** The first word of [s]: its characters up to the first white space. *)
Fixpoint word (s : str) : str :=
  match s with
  | c :: t => if isspace c then [] else c :: word t
  | [] => []
  end.

(** What is left of [s] after its first word. *)
Fixpoint after_word (s : str) : str :=
  match s with
  | c :: t => if isspace c then s else after_word t
  | [] => []
  end.

(** [s.split(maxsplit=1)]: the first word, and what follows the white
    space after it, up to the end of [s]. *)
Definition split1 (s : str) : list str :=
  match lstrip s with
  | [] => []
  | s1 =>
      match lstrip (after_word s1) with
      | [] => [word s1]
      | rest => [word s1; rest]
      end
  end.

(** The lines the command loop prints, by their place in the source. *)
Inductive said : Type :=
| ProjectRoot (root : str)                  (* line 327 *)
| CommandsHeader                            (* line 328 *)
| HelpUpdate                                (* line 329 *)
| HelpUpdateResume                          (* line 330 *)
| HelpLs                                    (* line 331 *)
| HelpExit                                  (* line 332 *)
| Listed (file : str)                       (* line 344 *)
| ResumeNotFound                            (* line 361 *)
| UsageLine                                 (* line 367 *)
| UnknownCommand.                           (* line 369 *)

(** The calls of the command loop on the outside: a line read at its
    prompt, a line printed, or a call of the update flow. *)
Inductive shell_event : Type :=
| Typed (line : str)
| Said (m : said)
| Flow (e : event).

(** A run of the command loop: its result, the world after, and the
    log. *)
Definition shell_run (A : Type) : Type := result A * world * list shell_event.

(** How an iteration of the loop leaves it. *)
Inductive next : Type :=
| Continue
| Break.

Definition banner (root : str) : list shell_event :=
  [Said (ProjectRoot root); Said CommandsHeader; Said HelpUpdate;
   Said HelpUpdateResume; Said HelpLs; Said HelpExit].

Section Shell.
Context `{Libraries}.

(** [os.listdir(root)]: the names in the directory, or the exception it
    raises. *)
Variable listdir : world -> str -> result (list str).

(** [input("\n> ")] *)
Definition read_command (w : world) : shell_run str :=
  match stdin w with
  | [] => (Raise EOFError, w, [])
  | line :: rest =>
      (Ok line, World (files w) rest (api_key w) (endpoint w) (calls w),
       [Typed line])
  end.

(** [update_resume_flow(root, path)] inside the loop. *)
Definition run_flow (root path : str) (w : world) : shell_run next :=
  match update_resume_flow root path w with
  | (Ok _, w', l) => (Ok Continue, w', map Flow l)
  | (Raise e, w', l) => (Raise e, w', map Flow l)
  end.

Definition common_paths : list str :=
  [lit "resume.html"; lit "index.html";
   path_join (lit "templates") (lit "resume.html");
   path_join (lit "pages") (lit "resume.html")].

(** Lines 353 to 361: the flow on the first of the paths that exists. *)
Fixpoint update_first (root : str) (paths : list str) (w : world)
    : shell_run next :=
  match paths with
  | [] => (Ok Continue, w, [Said ResumeNotFound])
  | path :: rest =>
      if bool_decide (is_Some (files w !! path_join root path))
      then run_flow root path w
      else update_first root rest w
  end.

(** Lines 336 to 369: one command. *)
Definition dispatch (root cmd : str) (w : world) : shell_run next :=
  if bool_decide (cmd = []) then (Ok Continue, w, [])
  else if Py.eqb cmd (lit "exit") then (Ok Break, w, [])
  else if Py.eqb cmd (lit "ls") then
    match listdir w root with
    | Ok names =>
        (Ok Continue, w,
         map (fun file => Said (Listed file))
             (filter (fun file => endswith (lit ".html") file = true) names))
    | Raise e => (Raise e, w, [])
    end
  else if Py.eqb cmd (lit "update resume") then update_first root common_paths w
  else if startswith (lit "update ") cmd then
    match split1 cmd with
    | [_; path] => run_flow root path w
    | _ => (Ok Continue, w, [Said UsageLine])
    end
  else (Ok Continue, w, [Said UnknownCommand]).

(** The [while True] loop, for at most [fuel] commands: [None] when the
    fuel runs out before the loop is left. *)
Fixpoint command_loop (fuel : nat) (root : str) (w : world)
    : option (shell_run unit) :=
  match fuel with
  | O => None
  | S fuel =>
      match read_command w with
      | (Raise e, w1, l1) => Some (Raise e, w1, l1)
      | (Ok line, w1, l1) =>
          match dispatch root (strip line) w1 with
          | (Raise e, w2, l2) => Some (Raise e, w2, l1 ++ l2)
          | (Ok Break, w2, l2) => Some (Ok tt, w2, l1 ++ l2)
          | (Ok Continue, w2, l2) =>
              match command_loop fuel root w2 with
              | Some (r, w3, l3) => Some (r, w3, l1 ++ l2 ++ l3)
              | None => None
              end
          end
      end
  end.

(** Every command reads a line, so one more than the lines there are is
    fuel enough. *)
Definition interactive_agent (root : str) (w : world) : option (shell_run unit) :=
  match command_loop (S (length (stdin w))) root w with
  | Some (r, w', l) => Some (r, w', banner root ++ l)
  | None => None
  end.

End Shell.

(** The lines a run of the loop read at its own prompt. *)
Definition typed (l : list shell_event) : list str :=
  omap (fun e => match e with Typed line => Some line | _ => None end) l.

(** The events of the update flow in a run of the loop. *)
Definition flow_events (l : list shell_event) : list event :=
  omap (fun e => match e with Flow e => Some e | _ => None end) l.

(** A line that is no update command. *)
Definition no_update (line : str) : Prop :=
  startswith (lit "update ") (strip line) = false.

(** A line that neither leaves the loop nor looks outside it: no update
    command, not [exit], not [ls]. *)
Definition idle (line : str) : Prop :=
  no_update line /\ strip line <> lit "exit" /\ strip line <> lit "ls".

(** A directory for [Stage]. *)
Module Booth.

Definition listing : world -> str -> result (list str) :=
  fun _ _ => Ok [lit "resume.html"; lit "notes.txt"; lit "index.html"].

(** A site whose page is [index.html]. *)
Definition index_disk : gmap str bytes :=
  <[Demo.join_path Scene.root (lit "index.html") := Scene.octets Scene.old_page]>
    (<[Scene.pdf_path := Scene.resume_pdf]> ∅).

(** Lines that run no update, and the log of the loop on them. *)
Definition idle_lines : list str :=
  [lit " update  "; lit "ls"; lit ""; lit "exit"].

Definition idle_log : list shell_event :=
  banner Scene.root
  ++ [Typed (lit " update  "); Said UnknownCommand;
      Typed (lit "ls"); Said (Listed (lit "resume.html"));
      Said (Listed (lit "index.html"));
      Typed (lit ""); Typed (lit "exit")].

End Booth.

(* ===================================================================== *)
(** ** Running a computation *)
(* ===================================================================== *)

Lemma bind_run {A B} (m : M A) (f : A -> M B) w :
  (m ≫= f) w =
  match m w with
  | (Ok a, w1, l1) => match f a w1 with (r, w2, l2) => (r, w2, l1 ++ l2) end
  | (Raise e, w1, l1) => (Raise e, w1, l1)
  end.
Proof. reflexivity. Qed.

Lemma bind_inv {A B} (m : M A) (f : A -> M B) w r w' l :
  (m ≫= f) w = (r, w', l) ->
  (exists a w1 l1 l2,
      m w = (Ok a, w1, l1) /\ f a w1 = (r, w', l2) /\ l = l1 ++ l2)
  \/ (exists e, m w = (Raise e, w', l) /\ r = Raise e).
Proof.
  rewrite bind_run. destruct (m w) as [[[a|e] w1] l1].
  - destruct (f a w1) as [[r2 w2] l2] eqn:E. intros [= <- <- <-].
    left. by exists a, w1, l1, l2.
  - intros [= <- <- <-]. right. by exists e.
Qed.

(** Running the binds and the operations that do not look at the world. *)
Ltac run :=
  repeat first
    [ rewrite bind_run
    | progress cbv beta iota zeta
        delta [ret raise lift emit get put print sleep when mret M_ret]
    | progress cbn [app]
    | rewrite app_nil_r ].

(** One operation of the world, by cases. *)
Ltac run_prim :=
  intros ? ? ? ?;
  repeat (cbv beta delta [mbind M_bind mret M_ret bind ret raise lift get put
                          emit print sleep when exists_ input completion try_]
              iota zeta);
  simpl;
  repeat case_match; intros; simplify_eq/=;
  (split; [ try reflexivity; try (hnf; intros; simpl; try done)
          | repeat constructor ]).

(* ===================================================================== *)
(** ** Text *)
(* ===================================================================== *)

(** The digest of the three octets of [abc], as the standard gives it. *)
Example sha256_abc :
  Sha256.hexdigest [97; 98; 99] =
  lit "ba7816bf8f01cfea414140de5dae2223b00361a396177a9cb410ff61f20015ad".
Proof. vm_compute. reflexivity. Qed.

Lemma startswith_prefix p s : startswith p s = true <-> p `prefix_of` s.
Proof.
  revert s. induction p as [|a p IH]; intros [|b s]; simpl.
  - split; [intros _; apply prefix_nil | done].
  - split; [intros _; apply prefix_nil | done].
  - split; [done | by intros ?%prefix_nil_not].
  - rewrite andb_true_iff, N.eqb_eq, IH. split.
    + intros [-> ?]. by apply prefix_cons.
    + intros [k [= -> ->]]. split; [done | by exists k].
Qed.

Lemma find_from_range sub s i :
  find_from sub s i = -1 \/ i <= find_from sub s i.
Proof.
  revert i. induction s as [|c s IH]; intros i; simpl.
  - destruct (startswith sub []); lia.
  - destruct (startswith sub (c :: s)); [lia|]. destruct (IH (i + 1)); lia.
Qed.

(** What [find] returns is an index at which the text reads [sub]. *)
Lemma find_from_found sub s i :
  find_from sub s i <> -1 ->
  startswith sub (drop (Z.to_nat (find_from sub s i - i)) s) = true.
Proof.
  revert i. induction s as [|c s IH]; intros i; simpl.
  - destruct (startswith sub []) eqn:E; [|congruence].
    intros _. by rewrite Z.sub_diag.
  - destruct (startswith sub (c :: s)) eqn:E.
    + intros _. by rewrite Z.sub_diag.
    + intros Hne. destruct (find_from_range sub s (i + 1)) as [?|Hr]; [done|].
      replace (Z.to_nat (find_from sub s (i + 1) - i))
        with (S (Z.to_nat (find_from sub s (i + 1) - (i + 1)))) by lia.
      simpl. by apply IH.
Qed.

(** An occurrence in a text is an occurrence in every text it starts. *)
Lemma find_from_app sub s t i :
  0 <= i -> find_from sub s i <> -1 -> find_from sub (s ++ t) i <> -1.
Proof.
  revert i. induction s as [|c s IH]; intros i Hi; simpl.
  - destruct (startswith sub []) eqn:E; [|congruence]. intros _.
    assert (startswith sub t = true) as Ht.
    { apply startswith_prefix. apply startswith_prefix in E.
      apply prefix_nil_inv in E as ->. apply prefix_nil. }
    destruct t; simpl in *; rewrite Ht; lia.
  - destruct (startswith sub (c :: s)) eqn:E.
    + intros _.
      assert (startswith sub (c :: s ++ t) = true) as ->; [|lia].
      apply startswith_prefix. apply startswith_prefix in E.
      etrans; [done|]. by apply (prefix_app_r _ (c :: s) t).
    + intros Hne. destruct (startswith sub (c :: s ++ t)); [lia|].
      apply IH; [lia|done].
Qed.

Lemma contains_app sub s t :
  contains sub (s ++ t) = false -> contains sub s = false.
Proof.
  unfold contains, find. rewrite !negb_false_iff, !Z.eqb_eq. intros Hst.
  destruct (decide (find_from sub s 0 = -1)) as [|Hne]; [done|].
  by apply (find_from_app sub s t 0) in Hne.
Qed.

Lemma contains_elem sub s c : contains sub s = true -> c ∈ sub -> c ∈ s.
Proof.
  unfold contains, find. rewrite negb_true_iff, Z.eqb_neq.
  intros Hf%find_from_found Hc. apply startswith_prefix in Hf as [k Hk].
  rewrite <- (take_drop (Z.to_nat (find_from sub s 0 - 0)) s), Hk.
  rewrite !elem_of_app. auto.
Qed.

Lemma lower_app s t : lower (s ++ t) = lower s ++ lower t.
Proof. unfold lower. apply flat_map_app. Qed.

(** A lower-cased text holds no ASCII capital. *)
Lemma lower_no_capital s c : c ∈ lower s -> ~ (65 <= c <= 90)%N.
Proof.
  unfold lower. rewrite list_elem_of_In, in_flat_map.
  intros (x & _ & Hc). revert Hc. unfold lower_char.
  destruct ((65 <=? x) && (x <=? 90))%N eqn:E1.
  - apply andb_true_iff in E1 as [?%N.leb_le ?%N.leb_le]. simpl. lia.
  - apply andb_false_iff in E1.
    destruct (x =? 304)%N; [simpl; lia|].
    destruct (x =? 8490)%N; [simpl; lia|].
    simpl. intros [<-|[]]. rewrite !N.leb_gt in E1. lia.
Qed.

(** The first test of line 269 looks for a text with capitals in a
    lower-cased text: it finds none, whatever the response. *)
Lemma doctype_never_found s :
  contains (lit "<!DOCTYPE html>") (lower s) = false.
Proof.
  destruct (contains _ _) eqn:E; [|done].
  apply (contains_elem _ _ 68%N) in E;
    [|vm_compute; repeat first [apply list_elem_of_here | apply list_elem_of_further]].
  apply lower_no_capital in E. lia.
Qed.

Lemma contains_lower_upto sub n s :
  contains sub (lower s) = false -> contains sub (lower (upto n s)) = false.
Proof.
  intros Hs. apply (contains_app _ _ (lower (from n s))).
  unfold upto, from. by rewrite <- lower_app, take_drop.
Qed.

(* ===================================================================== *)
(** ** The fingerprint and the order of keys *)
(* ===================================================================== *)

Lemma str_leb_refl a : Json.str_leb a a = true.
Proof.
  induction a as [|x a IH]; simpl; [done|].
  by rewrite N.eqb_refl, IH, orb_true_r.
Qed.

Lemma str_leb_total a b : Json.str_leb a b = true \/ Json.str_leb b a = true.
Proof.
  revert b. induction a as [|x a IH]; intros [|y b]; simpl; auto.
  destruct (N.lt_trichotomy x y) as [Hlt|[->|Hgt]].
  - left. apply N.ltb_lt in Hlt. by rewrite Hlt.
  - rewrite N.eqb_refl, !andb_true_l.
    destruct (IH b) as [->| ->]; rewrite orb_true_r; auto.
  - right. apply N.ltb_lt in Hgt. by rewrite Hgt.
Qed.

Lemma str_leb_cons x a y b :
  Json.str_leb (x :: a) (y :: b) = true <->
  (x < y)%N \/ x = y /\ Json.str_leb a b = true.
Proof.
  simpl. by rewrite orb_true_iff, andb_true_iff, N.ltb_lt, N.eqb_eq.
Qed.

Lemma str_leb_trans a b c :
  Json.str_leb a b = true -> Json.str_leb b c = true -> Json.str_leb a c = true.
Proof.
  revert b c. induction a as [|x a IH]; intros [|y b] [|z c]; try done.
  rewrite !str_leb_cons. intros [?|[-> ?]] [?|[-> ?]]; [left; lia..|].
  right. split; [done|]. by apply (IH b).
Qed.

Lemma str_leb_antisym a b :
  Json.str_leb a b = true -> Json.str_leb b a = true -> a = b.
Proof.
  revert b. induction a as [|x a IH]; intros [|y b]; try done.
  rewrite !str_leb_cons. intros [?|[-> ?]] [?|[? ?]]; try lia.
  f_equal. by apply IH.
Qed.

Lemma item_le_total a b : item_le a b \/ item_le b a.
Proof.
  unfold item_le, Json.item_leb. destruct a as [k1 v1], b as [k2 v2]. simpl.
  repeat case_bool_decide; subst; try done; apply str_leb_total.
Qed.

Lemma item_le_trans : Transitive item_le.
Proof.
  intros [k1 v1] [k2 v2] [k3 v3]. unfold item_le, Json.item_leb. simpl.
  repeat case_bool_decide; subst; try done; intros H12 H23.
  - by apply (str_leb_trans _ v2).
  - by rewrite (str_leb_antisym _ _ H12 H23) in *.
  - by apply (str_leb_trans _ k2).
Qed.

Lemma item_le_antisym : AntiSymm (=) item_le.
Proof.
  intros [k1 v1] [k2 v2]. unfold item_le, Json.item_leb. simpl.
  repeat case_bool_decide; subst; try done; intros H12 H21.
  - f_equal. by apply str_leb_antisym.
  - by rewrite (str_leb_antisym _ _ H12 H21) in *.
Qed.

Lemma insert_item_perm x l : Json.insert_item x l ≡ₚ x :: l.
Proof.
  induction l as [|y l IH]; simpl; [done|].
  destruct (Json.item_leb x y); [done|].
  rewrite IH. apply Permutation_swap.
Qed.

Lemma insert_item_sorted x l :
  Sorted item_le l -> Sorted item_le (Json.insert_item x l).
Proof.
  induction l as [|y l IH]; simpl; intros Hs.
  - by repeat constructor.
  - destruct (Json.item_leb x y) eqn:E.
    + constructor; [done|]. by constructor.
    + apply Sorted_inv in Hs as [Hs Hy]. constructor; [by apply IH|].
      assert (item_le y x) as Hyx by (by destruct (item_le_total x y) as [H|H];
        [unfold item_le in H; congruence|]).
      destruct l as [|z l]; simpl; [by constructor|].
      destruct (Json.item_leb x z); constructor; [done|].
      by apply HdRel_inv in Hy.
Qed.

Lemma sorted_items_perm d : Json.sorted_items d ≡ₚ d.
Proof.
  induction d as [|x d IH]; simpl; [done|].
  by rewrite insert_item_perm, IH.
Qed.

Lemma sorted_items_sorted d : Sorted item_le (Json.sorted_items d).
Proof.
  induction d as [|x d IH]; simpl; [constructor|]. by apply insert_item_sorted.
Qed.

(** The dump of a dict does not depend on the order its keys were set in. *)
Lemma sorted_items_key_order d1 d2 :
  d1 ≡ₚ d2 -> Json.sorted_items d1 = Json.sorted_items d2.
Proof.
  intros Hp.
  apply (@Sorted_unique _ item_le item_le_trans item_le_antisym);
    auto using sorted_items_sorted.
  by rewrite !sorted_items_perm.
Qed.

Lemma dumps_sorted_key_order ms1 ms2 :
  Forall2 (≡ₚ) ms1 ms2 -> Json.dumps_sorted ms1 = Json.dumps_sorted ms2.
Proof.
  intros Hms. unfold Json.dumps_sorted. do 3 f_equal.
  induction Hms as [|d1 d2 ms1 ms2 Hd _ IH]; simpl; [done|].
  f_equal; [|done]. unfold Json.dumps_dict. by rewrite (sorted_items_key_order _ _ Hd).
Qed.

(** X11. Requests with the same dicts, whatever the order of the keys in
    each, have the same fingerprint: line 90 dumps them with sorted keys. *)
Lemma fingerprint_key_order ms1 ms2 :
  Forall2 (≡ₚ) ms1 ms2 -> fingerprint ms1 = fingerprint ms2.
Proof. intros Hms. unfold fingerprint. by rewrite (dumps_sorted_key_order _ _ Hms). Qed.

(** Two requests that differ in one character of the content, and their
    fingerprints. *)
Example fingerprint_of_one_character :
  fingerprint [[(lit "role", lit "user"); (lit "content", lit "resume")]]
  = Some (lit "d1a137122ce24b4a52520698cadaa4cc6a07f9df184c7c9eb789f1713b54e591")
  /\ fingerprint [[(lit "role", lit "user"); (lit "content", lit "resumf")]]
  = Some (lit "1a06e22f17f6ab03af713102f6a4674686859f87028ab74c7dde9cbd13cf1e06").
Proof. vm_compute. done. Qed.
(* ===================================================================== *)
(** ** Frames *)
(* ===================================================================== *)

Section Frames.
Context (R : relation world) `{!PreOrder R} (ok : event -> Prop).

Lemma run_ok_ret {A} (a : A) : run_ok R ok (ret a).
Proof. intros w r w' l [= <- <- <-]. split; [reflexivity | constructor]. Qed.

Lemma run_ok_mret {A} (a : A) : run_ok R ok (mret a).
Proof. apply run_ok_ret. Qed.

Lemma run_ok_raise {A} e : run_ok R ok (@raise A e).
Proof. intros w r w' l [= <- <- <-]. split; [reflexivity | constructor]. Qed.

Lemma run_ok_lift {A} (x : result A) : run_ok R ok (lift x).
Proof. intros w r w' l [= <- <- <-]. split; [reflexivity | constructor]. Qed.

Lemma run_ok_emit e : ok e -> run_ok R ok (emit e).
Proof.
  intros He w r w' l [= <- <- <-]. split; [reflexivity | by repeat constructor].
Qed.

Lemma run_ok_bind {A B} (m : M A) (f : A -> M B) :
  run_ok R ok m -> (forall a, run_ok R ok (f a)) -> run_ok R ok (m ≫= f).
Proof.
  intros Hm Hf w r w' l
    [(a & w1 & l1 & l2 & E1 & E2 & ->)|(e & E1 & ->)]%bind_inv.
  - destruct (Hm _ _ _ _ E1), (Hf _ _ _ _ _ E2).
    split; [by etrans | by apply Forall_app].
  - eauto.
Qed.

Lemma run_ok_try {A} (m : M A) : run_ok R ok m -> run_ok R ok (try_ m).
Proof.
  intros Hm w r w' l. unfold try_. destruct (m w) as [[r1 w1] l1] eqn:E.
  intros [= <- <- <-]. eauto.
Qed.

End Frames.

Lemma anywhere_preorder : PreOrder anywhere.
Proof. by split. Qed.

Lemma off_cache_preorder : PreOrder off_cache.
Proof.
  split; [by intros w p | intros w1 w2 w3 H12 H23 p Hp].
  by rewrite H23, H12.
Qed.

Lemma same_calls_preorder : PreOrder same_calls.
Proof.
  split; [by intros w | intros w1 w2 w3 H12 H23].
  unfold same_calls in *. congruence.
Qed.

Create HintDb frames discriminated.
#[local] Hint Constants Opaque : frames.
#[local] Hint Resolve off_cache_preorder same_calls_preorder anywhere_preorder : frames.
#[local] Hint Extern 1 (PreOrder _) => typeclasses eauto : frames.

(** A composite computation, by the frame rules. *)
Ltac frame_step :=
  lazymatch goal with
  | |- PreOrder _ => solve [auto with frames]
  | |- run_ok _ _ (ret _) => apply run_ok_ret
  | |- run_ok _ _ (mret _) => apply run_ok_mret
  | |- run_ok _ _ (raise _) => apply run_ok_raise
  | |- run_ok _ _ (lift _) => apply run_ok_lift
  | |- run_ok _ _ (emit _) => apply run_ok_emit; [ | done]
  | |- run_ok _ _ (print _) => unfold print
  | |- run_ok _ _ (sleep _) => unfold sleep
  | |- run_ok _ _ (when _ _) => unfold when
  | |- run_ok _ _ (try_ _) => apply run_ok_try
  | |- run_ok _ _ (mbind _ _) => apply run_ok_bind; [ | | intros ?]
  | |- run_ok _ _ (match ?x with _ => _ end) => destruct x
  | |- run_ok _ _ (let _ := _ in _) => cbv zeta
  | |- _ => solve [auto with frames]
  end.

Ltac frame := repeat frame_step.

Section AgentFrames.
Context `{Libraries}.

Lemma exists_off_cache p : run_ok off_cache quiet (exists_ p).
Proof. run_prim. Qed.

Lemma read_file_off_cache p : run_ok off_cache quiet (read_file p).
Proof. unfold read_file. run_prim. Qed.

Lemma extract_pdf_text_off_cache p : run_ok off_cache quiet (extract_pdf_text p).
Proof. unfold extract_pdf_text. run_prim. Qed.

Lemma get_api_key_off_cache : run_ok off_cache quiet get_api_key.
Proof. unfold get_api_key. run_prim. Qed.

Lemma completion_off_cache m : run_ok off_cache quiet (completion m).
Proof. run_prim. Qed.

Lemma load_cache_off_cache : run_ok off_cache quiet _load_cache.
Proof. unfold _load_cache. run_prim. Qed.

Lemma save_cache_off_cache c : run_ok off_cache quiet (_save_cache c).
Proof. unfold _save_cache. run_prim. by rewrite lookup_insert_ne. Qed.

#[local] Hint Resolve exists_off_cache read_file_off_cache
  extract_pdf_text_off_cache get_api_key_off_cache completion_off_cache
  load_cache_off_cache save_cache_off_cache : frames.

Lemma attempts_off_cache m todo last :
  run_ok off_cache quiet (attempts m todo last).
Proof.
  revert last. induction todo as [|attempt rest IH]; intros last; simpl; frame.
Qed.
#[local] Hint Resolve attempts_off_cache : frames.

Lemma cached_generate_off_cache m : run_ok off_cache quiet (cached_generate m).
Proof. unfold cached_generate, generate_response. frame. Qed.
#[local] Hint Resolve cached_generate_off_cache : frames.

Lemma generate_candidate_off_cache root rel :
  run_ok off_cache quiet (generate_candidate root rel).
Proof. unfold generate_candidate. frame. Qed.

Lemma exists_offline p : run_ok same_calls offline (exists_ p).
Proof. run_prim. Qed.

Lemma input_offline p : run_ok same_calls offline (input p).
Proof. run_prim. Qed.

Lemma backup_file_offline p : run_ok same_calls offline (backup_file p).
Proof. unfold backup_file. run_prim. Qed.

Lemma write_file_offline p c : run_ok same_calls offline (write_file p c).
Proof. unfold write_file. run_prim. Qed.

#[local] Hint Resolve exists_offline input_offline backup_file_offline
  write_file_offline : frames.

Lemma validate_offline u : run_ok same_calls offline (validate u).
Proof. unfold validate. frame. Qed.

Lemma preview_offline u : run_ok same_calls offline (preview u).
Proof. unfold preview. frame. Qed.

Lemma backup_and_apply_offline hp hc u :
  run_ok same_calls offline (backup_and_apply hp hc u).
Proof. unfold backup_and_apply, apply_update. frame. Qed.

Lemma backup_file_unasked p : run_ok anywhere unasked (backup_file p).
Proof. unfold backup_file. run_prim. Qed.

Lemma write_file_unasked p c : run_ok anywhere unasked (write_file p c).
Proof. unfold write_file. run_prim. Qed.

#[local] Hint Resolve backup_file_unasked write_file_unasked : frames.

Lemma apply_update_unasked b hp hc u :
  run_ok anywhere unasked (apply_update b hp hc u).
Proof. unfold apply_update. frame. Qed.

End AgentFrames.

(* ===================================================================== *)
(** ** The completion client *)
(* ===================================================================== *)

Section Client.
Context `{Libraries}.

Lemma exists_run p w :
  exists_ p w = (Ok (bool_decide (is_Some (files w !! p))), w, []).
Proof. reflexivity. Qed.

Lemma exists_bind {B} p (f : bool -> M B) w :
  (exists_ p ≫= f) w = f (bool_decide (is_Some (files w !! p))) w.
Proof.
  rewrite bind_run, exists_run.
  by destruct (f _ w) as [[r w2] l2].
Qed.

Lemma get_api_key_run w key :
  api_key w = Some key -> key <> [] -> get_api_key w = (Ok key, w, []).
Proof.
  intros Hk Hne. unfold get_api_key. run. rewrite Hk.
  by rewrite bool_decide_false.
Qed.

Lemma completion_run messages w :
  completion messages w =
  (match endpoint w (calls w) messages with
   | Content text => Ok text
   | Raises e => Raise e
   end, called w, [Called messages (endpoint w (calls w) messages)]).
Proof.
  unfold completion. run.
  by destruct (endpoint w (calls w) messages).
Qed.

(** One pass through the [try] of [generate_response] with a key set. *)
Lemma attempt_run messages w key :
  api_key w = Some key -> key <> [] ->
  try_ (_ ← get_api_key; completion messages) w =
  (Ok (match endpoint w (calls w) messages with
       | Content text => Ok text
       | Raises e => Raise e
       end), called w, [Called messages (endpoint w (calls w) messages)]).
Proof.
  intros Hk Hne. unfold try_.
  by rewrite bind_run, (get_api_key_run _ _ Hk Hne), completion_run.
Qed.

(** A transient error: the loop prints, sleeps [3 * attempt] and goes on. *)
Lemma attempts_retry messages attempt rest last w key :
  api_key w = Some key -> key <> [] ->
  endpoint w (calls w) messages = Raises APIError ->
  attempts messages (attempt :: rest) last w =
  match attempts messages rest (Some APIError) (called w) with
  | (r, w', l) =>
      (r, w', [Called messages (Raises APIError); Printed (LlmRetry attempt);
               Slept (3 * attempt)] ++ l)
  end.
Proof.
  intros Hk Hne He. cbn [attempts].
  rewrite bind_run, (attempt_run _ _ _ Hk Hne), He. run.
  by destruct (attempts messages rest (Some APIError) (called w)) as [[r w'] l].
Qed.

Lemma attempts_success messages attempt rest last w key text :
  api_key w = Some key -> key <> [] ->
  endpoint w (calls w) messages = Content text ->
  attempts messages (attempt :: rest) last w =
  (Ok (py_text text), called w, [Called messages (Content text)]).
Proof.
  intros Hk Hne He. cbn [attempts].
  by rewrite bind_run, (attempt_run _ _ _ Hk Hne), He.
Qed.


End Client.

(* ===================================================================== *)
(** ** The response cache *)
(* ===================================================================== *)

Section Cache.
Context `{Libraries}.

Lemma load_cache_run w : _load_cache w = (Ok (cache_of w), w, cache_opened w).
Proof.
  unfold _load_cache, cache_of, cache_opened. run.
  destruct (files w !! CACHE_FILENAME) as [b|]; [|done].
  run. by destruct (json_load b).
Qed.

Lemma save_cache_run cache w :
  _save_cache cache w =
  (Ok (), with_files (<[CACHE_FILENAME := json_dump cache]> (files w)) w,
   [Dumped cache]).
Proof. reflexivity. Qed.

(** [cached_generate], run. *)
Lemma cached_generate_run messages w :
  cached_generate messages w =
  match fingerprint messages with
  | None => (Raise UnicodeEncodeError, w, [])
  | Some key =>
      match contains_key key (cache_of w) with
      | Raise e => (Raise e, w, cache_opened w)
      | Ok true => (getitem (cache_of w) key, w, cache_opened w)
      | Ok false =>
          match generate_response messages 3 w with
          | (Raise e, w1, l) => (Raise e, w1, cache_opened w ++ l)
          | (Ok resp, w1, l) =>
              match setitem (cache_of w) key resp with
              | Raise e => (Raise e, w1, cache_opened w ++ l)
              | Ok cache' =>
                  (Ok resp,
                   with_files (<[CACHE_FILENAME := json_dump cache']> (files w1)) w1,
                   cache_opened w ++ l ++ [Dumped cache'])
              end
          end
      end
  end.
Proof.
  unfold cached_generate. destruct (fingerprint messages) as [key|]; [|done].
  rewrite bind_run, load_cache_run. run.
  destruct (contains_key key (cache_of w)) as [[|]|e]; run.
  - done.
  - destruct (generate_response messages 3 w) as [[[resp|e] w1] l]; run; [|done].
    destruct (setitem (cache_of w) key resp) as [cache'|e]; run.
    + rewrite save_cache_run. by run.
    + done.
  - done.
Qed.

(** The completion client neither reads nor writes files. *)
Lemma attempts_with_files messages todo last f w :
  attempts messages todo last (with_files f w) =
  match attempts messages todo last w with
  | (r, w', l) => (r, with_files f w', l)
  end.
Proof.
  revert last w. induction todo as [|attempt rest IH]; intros last w; [done|].
  cbn [attempts]. unfold try_, get_api_key. run. cbn [api_key with_files].
  destruct (api_key w) as [key|]; [|done].
  destruct (bool_decide (key = [])); [done|]. run.
  rewrite !completion_run. cbn [endpoint calls with_files].
  destruct (endpoint w (calls w) messages) as [text|e]; [done|].
  destruct e; try done. run.
  change (called (with_files f w)) with (with_files f (called w)).
  rewrite IH.
  by destruct (attempts messages rest (Some APIError) (called w)) as [[r w'] l].
Qed.

Lemma attempts_files messages todo last w r w' l :
  attempts messages todo last w = (r, w', l) -> files w' = files w.
Proof.
  intros E. pose proof (attempts_with_files messages todo last (files w) w) as E'.
  assert (with_files (files w) w = w) as Hw by by destruct w.
  rewrite Hw, E in E'. by injection E' as ->.
Qed.

(** C9. A cache file that [json.load] cannot read counts as an empty
    table.  [_load_cache] returns [{}].  [cached_generate] returns what it
    returns with no cache file at all, after the same calls, and does not
    raise because of the file.  And when the endpoint answers the first
    call, the run succeeds: the answer is returned and the file is
    replaced by the table that holds the new entry alone, the same world
    the run without a cache file ends in. *)
Theorem unreadable_cache_starts_fresh messages w b key :
  files w !! CACHE_FILENAME = Some b ->
  json_load b = None ->
  fingerprint messages = Some key ->
  _load_cache w = (Ok (Json.Obj []), w, [Opened CACHE_FILENAME])
  /\ (forall r w0 l, cached_generate messages (without_cache w) = (r, w0, l) ->
      exists w', cached_generate messages w = (r, w', Opened CACHE_FILENAME :: l)
        /\ (forall resp, r = Ok resp ->
            w' = w0 /\
            files w' !! CACHE_FILENAME = Some (json_dump (Json.Obj [(key, resp)]))))
  /\ (forall k text,
      api_key w = Some k -> k <> [] ->
      endpoint w (calls w) messages = Content text ->
      let table := Json.Obj [(key, py_text text)] in
      let w' := with_files (<[CACHE_FILENAME := json_dump table]> (files w))
                           (called w) in
      cached_generate messages w
      = (Ok (py_text text), w',
         [Opened CACHE_FILENAME; Called messages (Content text); Dumped table])
      /\ cached_generate messages (without_cache w)
        = (Ok (py_text text), w', [Called messages (Content text); Dumped table])
      /\ files w' !! CACHE_FILENAME = Some (json_dump table)).
Proof.
  intros Hb Hload Hkey.
  assert (cache_of w = Json.Obj []) as Hc by (unfold cache_of; by rewrite Hb, Hload).
  assert (cache_opened w = [Opened CACHE_FILENAME]) as Ho
    by (unfold cache_opened; by rewrite Hb).
  assert (cache_of (without_cache w) = Json.Obj []) as Hc0
    by (unfold cache_of, without_cache; simpl; by rewrite lookup_delete_eq).
  assert (cache_opened (without_cache w) = []) as Ho0
    by (unfold cache_opened, without_cache; simpl; by rewrite lookup_delete_eq).
  split; [by rewrite load_cache_run, Hc, Ho|]. split.
  - intros r w0 l. rewrite !cached_generate_run, Hkey, Hc, Ho, Hc0, Ho0.
    simpl. unfold generate_response, without_cache. rewrite attempts_with_files.
    destruct (attempts messages (seqZ 1 3) None w) as [[[resp|e] w1] l1] eqn:E.
    + intros [= <- <- <-]. eexists. split; [done|]. intros ? [= <-]. simpl.
      pose proof (attempts_files _ _ _ _ _ _ _ E) as Hf.
      split; [|by rewrite lookup_insert_eq].
      unfold with_files. simpl. f_equal.
      rewrite Hf. by rewrite insert_delete_eq.
    + intros [= <- <- <-]. eexists. split; [done|]. intros ? [=].
  - intros k text Hk Hne He. cbv zeta.
    assert (generate_response messages 3 w
            = (Ok (py_text text), called w, [Called messages (Content text)])) as Hg.
    { unfold generate_response. change (seqZ 1 3) with [1; 2; 3].
      by apply (attempts_success _ _ _ _ _ k). }
    rewrite !cached_generate_run, Hkey, Hc, Ho, Hc0, Ho0. simpl.
    rewrite Hg. unfold generate_response in *. unfold without_cache.
    rewrite attempts_with_files, Hg. simpl.
    split; [done|]. split; [|by rewrite lookup_insert_eq].
    unfold with_files. simpl. by rewrite insert_delete_eq.
Qed.

End Cache.

(* ===================================================================== *)
(** ** The update flow *)
(* ===================================================================== *)

Section Flow.
Context `{Libraries}.

Lemma generate_candidate_run root rel w :
  generate_candidate root rel w =
  let hp := path_join root rel in
  let pp := path_join root PDF_RELATIVE_PATH in
  match files w !! hp with
  | None => (Ok (Stop (Aborted NoHtmlFile)), w, [Printed (HtmlNotFound hp)])
  | Some bh =>
      match files w !! pp with
      | None => (Ok (Stop (Aborted NoPdfFile)), w, [Printed (PdfNotFound pp)])
      | Some bp =>
          match pdf_pages bp with
          | None =>
              (Raise PdfReadError, w,
               [Printed (ReadingHtml hp); Opened hp; Printed (ReadingPdf pp);
                Opened pp])
          | Some pages =>
              let hc := decode_replace bh in
              let pt := pdf_text_of pages in
              match cached_generate (build_resume_update_messages hp hc pt) w with
              | (Ok resp, w', l) =>
                  (match strip_value resp with
                   | Ok u => Ok (Candidate hp hc u)
                   | Raise e => Raise e
                   end, w', reading_log hp pp hc pt ++ l)
              | (Raise e, w', l) => (Raise e, w', reading_log hp pp hc pt ++ l)
              end
          end
      end
  end.
Proof.
  unfold generate_candidate. cbv zeta. rewrite exists_bind.
  destruct (files w !! path_join root rel) as [bh|] eqn:Eh; [|done].
  rewrite bool_decide_true by eauto. cbn [negb]. rewrite exists_bind.
  destruct (files w !! path_join root PDF_RELATIVE_PATH) as [bp|] eqn:Ep; [|done].
  rewrite bool_decide_true by eauto. cbn [negb]. run.
  unfold read_file. run. rewrite Eh. run.
  unfold extract_pdf_text. run. rewrite Ep. run.
  destruct (pdf_pages bp) as [pages|]; [|done]. run.
  fold (pdf_text_of pages).
  destruct (cached_generate _ w) as [[[resp|e] w'] l]; [|done]. run.
  destruct (strip_value resp); by run.
Qed.

Lemma validate_run u w : validate u w = (Ok (checked u), w, validate_log u).
Proof.
  unfold validate, checked, validate_log. fold (first_check_fails u).
  destruct (first_check_fails u); [|done]. run.
  by destruct (find (lit "<html") (lower u) >? 0).
Qed.

Lemma preview_run u w : preview u w = (Ok (), w, preview_log u).
Proof.
  unfold preview, preview_log. run.
  destruct (len u <? 5000); run;
    destruct (contains (lit "Mohammad Burhan") u); run;
    by destruct (contains (lit "Software Engineer") u).
Qed.

Lemma validate_log_printing u : Forall printing (validate_log u).
Proof. unfold validate_log. repeat case_match; by repeat constructor. Qed.

Lemma preview_log_printing u : Forall printing (preview_log u).
Proof. unfold preview_log. repeat case_match; by repeat constructor. Qed.

Lemma review_and_apply_run hp hc u w :
  review_and_apply hp hc u w =
  match checked u with
  | None => (Ok (Aborted (Unrecognized u)), w, validate_log u)
  | Some u' =>
      match backup_and_apply hp hc u' w with
      | (r, w2, l2) => (r, w2, validate_log u ++ preview_log u' ++ l2)
      end
  end.
Proof.
  unfold review_and_apply. rewrite bind_run, validate_run.
  destruct (checked u) as [u'|]; [|by run].
  rewrite bind_run, preview_run.
  by destruct (backup_and_apply hp hc u' w) as [[r w2] l2].
Qed.

(** [update_resume_flow], run from the candidate on. *)
Lemma update_resume_flow_run root rel w :
  update_resume_flow root rel w =
  match generate_candidate root rel w with
  | (Ok (Stop o), w1, l1) => (Ok o, w1, l1)
  | (Ok (Candidate hp hc u), w1, l1) =>
      match checked u with
      | None => (Ok (Aborted (Unrecognized u)), w1, l1 ++ validate_log u)
      | Some u' =>
          match backup_and_apply hp hc u' w1 with
          | (r, w2, l2) => (r, w2, l1 ++ validate_log u ++ preview_log u' ++ l2)
          end
      end
  | (Raise e, w1, l1) => (Raise e, w1, l1)
  end.
Proof.
  unfold update_resume_flow. rewrite bind_run.
  destruct (generate_candidate root rel w) as [[[[o|hp hc u]|e] w1] l1]; [by run| |done].
  rewrite review_and_apply_run.
  destruct (checked u) as [u'|]; [|done].
  by destruct (backup_and_apply hp hc u' w1) as [[r w2] l2].
Qed.

(** C4. When the PDF path names no file, the flow returns normally at
    line 247 or line 250, having only printed the message of that line:
    it has opened no file and called no endpoint, the world after is the
    world before, and no exception is raised. *)
Theorem missing_pdf_aborts root rel w :
  files w !! path_join root PDF_RELATIVE_PATH = None ->
  update_resume_flow root rel w =
    (Ok (Aborted NoHtmlFile), w, [Printed (HtmlNotFound (path_join root rel))])
  \/ update_resume_flow root rel w =
    (Ok (Aborted NoPdfFile), w,
     [Printed (PdfNotFound (path_join root PDF_RELATIVE_PATH))]).
Proof.
  intros Hpdf. rewrite update_resume_flow_run, generate_candidate_run. cbv zeta.
  rewrite Hpdf. destruct (files w !! path_join root rel); [by right | by left].
Qed.

End Flow.

Section Claims.
Context `{Libraries}.

Lemma printing_quiet l : Forall printing l -> Forall quiet l.
Proof. intros Hl. eapply Forall_impl; [done|]. by intros []. Qed.


Lemma quiet_untouched l : Forall quiet l -> Forall untouched l.
Proof. intros Hl. eapply Forall_impl; [done|]. by intros []. Qed.

(** With no root tag anywhere, line 269 fails and line 272 finds nothing. *)
Lemma checked_no_root_tag u :
  contains (lit "<html") (lower u) = false -> checked u = None.
Proof.
  intros Hu. unfold checked, first_check_fails.
  rewrite doctype_never_found, (contains_lower_upto _ _ _ Hu). simpl.
  unfold contains in Hu. apply negb_false_iff, Z.eqb_eq in Hu. by rewrite Hu.
Qed.

(** C3. When the stripped response holds no root tag in any letter case
    (with or without a doctype), the flow returns at line 280: nothing is
    written or copied, the operator is not asked, and the target file is
    what it was before the run. The cache table is the one file the run
    may have written, so the target is taken not to be that file. *)
Theorem unrecognized_output_is_not_written root rel w hp hc u w1 l1 :
  generate_candidate root rel w = (Ok (Candidate hp hc u), w1, l1) ->
  contains (lit "<html") (lower u) = false ->
  path_join root rel <> CACHE_FILENAME ->
  exists l,
    update_resume_flow root rel w = (Ok (Aborted (Unrecognized u)), w1, l)
    /\ Forall quiet l
    /\ files w1 !! path_join root rel = files w !! path_join root rel.
Proof.
  intros Hg Hu Hp. exists (l1 ++ validate_log u).
  destruct (generate_candidate_off_cache _ _ _ _ _ _ Hg) as [Hf Hq].
  rewrite update_resume_flow_run, Hg, (checked_no_root_tag _ Hu).
  split; [done|]. split; [|by apply Hf].
  apply Forall_app. split; [done|].
  apply printing_quiet, validate_log_printing.
Qed.

(** The backup path ends in [t], the cache file in [n]. *)
Lemma backup_is_not_cache p : p ++ BACKUP_SUFFIX <> CACHE_FILENAME.
Proof.
  intros E. apply (f_equal last) in E. rewrite last_app in E.
  by vm_compute in E.
Qed.

Lemma input_run p w :
  input p w =
  match stdin w with
  | [] => (Raise EOFError, w, [])
  | line :: rest =>
      (Ok line, World (files w) rest (api_key w) (endpoint w) (calls w),
       [Asked p line])
  end.
Proof. unfold input. run. by destruct (stdin w). Qed.

(** Declining at line 301 leaves every file as it is. *)
Lemma backup_and_apply_decline hp hc u w r w' l answer :
  backup_and_apply hp hc u w = (r, w', l) ->
  Asked AskApply answer ∈ l ->
  says_yes answer = false ->
  r = Ok (Cancelled u) /\ files w' = files w /\ Forall untouched l.
Proof.
  unfold backup_and_apply. rewrite exists_bind.
  intros [(bn & w1 & l1 & l2 & E1 & E2 & ->)|(e & E1 & ->)]%bind_inv Hin Hno.
  - assert (files w1 = files w /\ Forall untouched l1
            /\ forall a, Asked AskApply a ∉ l1) as (Hf1 & Hu1 & Hn1).
    { destruct (bool_decide _).
      - revert E1. rewrite bind_run, input_run.
        destruct (stdin w); intros [= <- <- <-]; simpl.
        split; [done|]. split; [by repeat constructor|].
        intros a Ha. apply list_elem_of_singleton in Ha. discriminate Ha.
      - injection E1 as <- <- <-. split; [done|]. split; [constructor|].
        intros a Ha. by apply elem_of_nil in Ha. }
    apply bind_inv in E2 as [(a & w2 & l3 & l4 & E2 & E3 & ->)|(e & E2 & ->)];
      rewrite input_run in E2.
    + destruct (stdin w1) as [|line rest]; [done|]. injection E2 as <- <- <-.
      destruct (says_yes line) eqn:Ey.
      * apply apply_update_unasked in E3 as [_ Hq].
        rewrite !elem_of_app, list_elem_of_singleton in Hin.
        destruct Hin as [Hin|[[= <-]|Hin]]; [by apply Hn1 in Hin|congruence|].
        rewrite Forall_forall in Hq. by apply Hq in Hin.
      * revert E3. run. intros [= <- <- <-]. split; [done|]. split; [done|].
        apply Forall_app. split; [done|]. by repeat constructor.
    + destruct (stdin w1); [|done]. injection E2 as <- <- <-.
      rewrite app_nil_r in Hin. by apply Hn1 in Hin.
  - exfalso. destruct (bool_decide _); [|done].
    revert E1. rewrite bind_run, input_run.
    destruct (stdin w); intros [= _ _ <-]. by apply elem_of_nil in Hin.
Qed.

Lemma quiet_not_asked l p a : Forall quiet l -> Asked p a ∉ l.
Proof. rewrite Forall_forall. intros Hq Hin. by apply Hq in Hin. Qed.

Lemma printing_not_asked l p a : Forall printing l -> Asked p a ∉ l.
Proof. rewrite Forall_forall. intros Hq Hin. by apply Hq in Hin. Qed.

(** C8. When the answer at the prompt of line 301 is anything but a yes
    (after [strip] and [lower]; the empty line included), the flow returns
    at line 321 with the update cancelled: nothing is written or copied,
    and the target file and its backup are what they were before the run.
    The cache table is the one file the run may have written, so the
    target is taken not to be that file. *)
Theorem decline_leaves_target_and_backup root rel w r w' l answer :
  update_resume_flow root rel w = (r, w', l) ->
  Asked AskApply answer ∈ l ->
  says_yes answer = false ->
  path_join root rel <> CACHE_FILENAME ->
  (exists candidate, r = Ok (Cancelled candidate))
  /\ Forall untouched l
  /\ files w' !! path_join root rel = files w !! path_join root rel
  /\ files w' !! (path_join root rel ++ BACKUP_SUFFIX)
     = files w !! (path_join root rel ++ BACKUP_SUFFIX).
Proof.
  rewrite update_resume_flow_run.
  destruct (generate_candidate root rel w) as [[[[o|hp hc u]|e] w1] l1] eqn:Eg;
    destruct (generate_candidate_off_cache _ _ _ _ _ _ Eg) as [Hf Hq].
  - intros [= <- <- <-] Hin. by apply (quiet_not_asked _ _ _ Hq) in Hin.
  - pose proof (validate_log_printing u) as Hv.
    revert Hv. generalize (validate_log u). intros lv Hv.
    destruct (checked u) as [u'|].
    + pose proof (preview_log_printing u') as Hpv.
      revert Hpv. generalize (preview_log u'). intros lp Hpv.
      destruct (backup_and_apply hp hc u' w1) as [[r2 w2] l2] eqn:Eb.
      intros [= <- <- <-] Hin Hno Hp.
      rewrite !elem_of_app in Hin.
      destruct Hin as [Hin|[Hin|[Hin|Hin]]];
        [by apply (quiet_not_asked _ _ _ Hq) in Hin
        |by apply (printing_not_asked _ _ _ Hv) in Hin
        |by apply (printing_not_asked _ _ _ Hpv) in Hin
        |].
      destruct (backup_and_apply_decline _ _ _ _ _ _ _ _ Eb Hin Hno)
        as (-> & Hf2 & Hu2).
      split; [by eexists|]. split.
      * rewrite !Forall_app. split; [by apply quiet_untouched|].
        split; [|split; [|done]].
        -- eapply Forall_impl; [apply Hv|by intros []].
        -- eapply Forall_impl; [apply Hpv|by intros []].
      * rewrite Hf2. split; [by apply Hf|apply Hf, backup_is_not_cache].
    + intros [= <- <- <-] Hin. rewrite elem_of_app in Hin.
      destruct Hin as [Hin|Hin]; [by apply (quiet_not_asked _ _ _ Hq) in Hin|].
      by apply (printing_not_asked _ _ _ Hv) in Hin.
  - intros [= <- <- <-] Hin. by apply (quiet_not_asked _ _ _ Hq) in Hin.
Qed.







Lemma dict_set_absent key v items :
  key ∉ items.*1 -> dict_set key v items = items ++ [(key, v)].
Proof.
  induction items as [|kv items IH]; simpl; [done|].
  intros [Hk Hin]%not_elem_of_cons.
  rewrite bool_decide_false by done. by rewrite IH.
Qed.


End Claims.

(* ===================================================================== *)
(** ** The trim of lines 272 to 275, and what is written *)
(* ===================================================================== *)

(** Apart from U+0130, a code point has one code point as lower case. *)
Lemma lower_char_one c : c <> 304%N -> exists d, lower_char c = [d].
Proof.
  intros Hc. unfold lower_char. destruct (_ && _); [eexists; reflexivity|].
  destruct (N.eqb_spec c 304); [done|].
  destruct (c =? 8490)%N; eexists; reflexivity.
Qed.

Lemma lower_drop n u : 304%N ∉ u -> lower (drop n u) = drop n (lower u).
Proof.
  revert n. induction u as [|c u IH]; intros n Hu; [by destruct n|].
  destruct n as [|n]; [done|].
  apply not_elem_of_cons in Hu as [Hc Hu].
  destruct (lower_char_one c) as [d Hd]; [done|].
  change (lower (c :: u)) with (lower_char c ++ lower u). rewrite Hd. simpl.
  by apply IH.
Qed.

(** [find] returns the least index at which the text reads [sub]. *)
Lemma find_from_least sub s i j :
  (j < Z.to_nat (find_from sub s i - i))%nat ->
  startswith sub (drop j s) = false.
Proof.
  revert i j. induction s as [|c s IH]; intros i j; simpl.
  - destruct (startswith sub []) eqn:E; [rewrite Z.sub_diag; lia|].
    intros _. by rewrite drop_nil.
  - destruct (startswith sub (c :: s)) eqn:E; [rewrite Z.sub_diag; lia|].
    destruct j as [|j]; [done|]. intros Hj. simpl. apply (IH (i + 1)).
    destruct (find_from_range sub s (i + 1)); lia.
Qed.

(** A text with no U+0130 is trimmed at its first root tag. *)
Lemma trim_at_first_tag u c :
  304%N ∉ u ->
  first_check_fails u = true ->
  checked u = Some c ->
  let k := find (lit "<html") (lower u) in
  0 < k /\ c = from k u
  /\ startswith (lit "<html") (lower c) = true
  /\ (forall j, 0 <= j < k -> startswith (lit "<html") (lower (from j u)) = false).
Proof.
  intros Hu Hf. unfold checked. rewrite Hf.
  destruct (Z.gtb_spec (find (lit "<html") (lower u)) 0) as [Hk|]; [|done].
  intros [= <-]. cbv zeta. unfold from, find in *.
  split; [done|]. split; [done|]. rewrite !lower_drop by done. split.
  - rewrite <- (Z.sub_0_r (find_from _ _ 0)) at 1.
    apply find_from_found. lia.
  - intros j Hj. rewrite lower_drop by done. apply (find_from_least _ _ 0). lia.
Qed.

Section Written.
Context `{Libraries}.

Lemma backup_file_run p w :
  backup_file p w =
  match files w !! p with
  | Some b =>
      (Ok (p ++ BACKUP_SUFFIX),
       with_files (<[p ++ BACKUP_SUFFIX := b]> (files w)) w,
       [Copied p (p ++ BACKUP_SUFFIX)])
  | None => (Raise (FileNotFoundError p), w, [])
  end.
Proof. unfold backup_file. run. by destruct (files w !! p). Qed.

Lemma write_file_run p c w :
  write_file p c w =
  match Utf8.encode c with
  | Some b => (Ok (), with_files (<[p := b]> (files w)) w, [Wrote p c])
  | None => (Raise UnicodeEncodeError, with_files (<[p := []]> (files w)) w, [Wrote p c])
  end.
Proof. unfold write_file. run. by destruct (Utf8.encode c). Qed.

(** The yes branch ends at line 318 with the text on disk. *)
Lemma apply_update_done bn hp hc u w c w' l :
  apply_update bn hp hc u w = (Ok (Done c), w', l) ->
  c = u /\ files w' !! hp = Utf8.encode u.
Proof.
  unfold apply_update.
  intros [(? & w1 & l1 & l2 & _ & E2 & ->)|(e & _ & [=])]%bind_inv.
  revert E2. rewrite bind_run, write_file_run.
  destruct (Utf8.encode u) as [b|]; [|done]. run.
  destruct (contains (lit "Alogonox") u && contains (lit "Seewise.ai") u); run;
    destruct (contains (lit "PRIST University") u); run;
    intros [= <- <- <-]; simpl; by rewrite lookup_insert_eq.
Qed.

Lemma backup_and_apply_done hp hc u w c w' l :
  backup_and_apply hp hc u w = (Ok (Done c), w', l) ->
  c = u /\ files w' !! hp = Utf8.encode u.
Proof.
  unfold backup_and_apply. rewrite exists_bind.
  intros [(bn & w1 & l1 & l2 & _ & E2 & ->)|(e & _ & [=])]%bind_inv.
  apply bind_inv in E2 as [(a & w2 & l3 & l4 & _ & E3 & ->)|(e & _ & [=])].
  destruct (says_yes a); [by apply apply_update_done in E3|].
  revert E3. by run.
Qed.

(** A run that ends at line 318 has written the checked candidate. *)
Lemma done_means_written root rel w c w' l :
  update_resume_flow root rel w = (Ok (Done c), w', l) ->
  exists hc u w1 l1,
    generate_candidate root rel w
    = (Ok (Candidate (path_join root rel) hc u), w1, l1)
    /\ checked u = Some c
    /\ files w' !! path_join root rel = Utf8.encode c.
Proof.
  rewrite update_resume_flow_run.
  destruct (generate_candidate root rel w) as [[[[o|hp hc u]|e] w1] l1] eqn:Eg;
    [| |done].
  - intros [= -> <- <-]. revert Eg. rewrite generate_candidate_run. cbv zeta.
    repeat case_match; done.
  - assert (hp = path_join root rel) as ->.
    { revert Eg. rewrite generate_candidate_run. cbv zeta.
      repeat case_match; try done; by intros [= <- _ _]. }
    destruct (checked u) as [u'|] eqn:Ec; [|done].
    destruct (backup_and_apply _ hc u' w1) as [[r w2] l2] eqn:Eb.
    intros [= -> <- <-]. apply backup_and_apply_done in Eb as [-> Hw].
    by exists hc, u, w1, l1.
Qed.

End Written.

(** [strip] leaves no white space at either end. *)
Lemma lstrip_head s c t : lstrip s = c :: t -> isspace c = false.
Proof.
  induction s as [|x s IH]; simpl; [done|].
  destruct (isspace x) eqn:E; [done|]. by intros [= <- _].
Qed.

Lemma lstrip_suffix s : exists a, s = a ++ lstrip s.
Proof.
  induction s as [|x s [a IH]]; simpl; [by exists []|].
  destruct (isspace x); [|by exists []]. exists (x :: a). simpl. by f_equal.
Qed.

Lemma strip_head s c t : strip s = c :: t -> isspace c = false.
Proof.
  unfold strip, rstrip. intros E.
  destruct (lstrip_suffix (rev (lstrip s))) as [a Ha].
  apply (f_equal (@rev N)) in Ha. rewrite rev_involutive, rev_app_distr, E in Ha.
  by apply (lstrip_head s c (t ++ rev a)).
Qed.

Lemma strip_last s c t : strip s = t ++ [c] -> isspace c = false.
Proof.
  unfold strip, rstrip. intros E. apply (f_equal (@rev N)) in E.
  rewrite rev_involutive, rev_app_distr in E. by apply lstrip_head in E.
Qed.

Lemma startswith_head a p s :
  startswith (a :: p) s = true -> exists s', s = a :: s'.
Proof.
  destruct s as [|b s]; simpl; [done|].
  intros [->%N.eqb_eq _]%andb_true_iff. by eexists.
Qed.

(** Only the bracket itself has the bracket as lower case. *)
Lemma lower_char_bracket x : lower_char x = [60%N] -> x = 60%N.
Proof.
  unfold lower_char. destruct ((65 <=? x) && (x <=? 90))%N eqn:E1.
  - apply andb_true_iff in E1 as [?%N.leb_le ?%N.leb_le]. intros [= ?]. lia.
  - destruct (x =? 304)%N; [done|]. destruct (x =? 8490)%N; [done|].
    by intros [= ->].
Qed.

(** X25. With no U+0130 in the stripped response, what [validate] lets
    through has no white space at either end. *)
Lemma checked_edges s c :
  304%N ∉ strip s ->
  checked (strip s) = Some c ->
  (forall x t, c = x :: t -> isspace x = false)
  /\ (forall x t, c = t ++ [x] -> isspace x = false).
Proof.
  intros Hs Hc. destruct (first_check_fails (strip s)) eqn:Ef.
  - destruct (trim_at_first_tag _ _ Hs Ef Hc) as (_ & -> & Htag & _). split.
    + intros x t E. rewrite E in Htag.
      assert (x <> 304%N) as Hx.
      { intros ->. apply Hs. unfold from in E.
        rewrite <- (take_drop (Z.to_nat (find (lit "<html") (lower (strip s)))) (strip s)), E.
        apply elem_of_app. right. by left. }
      destruct (lower_char_one x Hx) as [d Hd].
      change (lower (x :: t)) with (lower_char x ++ lower t) in Htag.
      rewrite Hd in Htag. apply (startswith_head 60 (lit "html")) in Htag as [? [= ->]].
      by apply lower_char_bracket in Hd as ->.
    + intros x t E. unfold from in E.
      apply (strip_last s x
               (take (Z.to_nat (find (lit "<html") (lower (strip s)))) (strip s) ++ t)).
      by rewrite <- app_assoc, <- E, take_drop.
  - unfold checked in Hc. rewrite Ef in Hc. injection Hc as <-.
    split; intros x t E; [by apply strip_head in E | by apply strip_last in E].
Qed.

(* ===================================================================== *)
(** ** The claims on concrete worlds *)
(* ===================================================================== *)

Import Scene.

(** The key of [request] is its SHA-256 fingerprint. *)
Example request_fingerprint : fingerprint request = Some request_key.
Proof. vm_compute. reflexivity. Qed.

(** C6, on the code. A stripped response that opens with a doctype and has
    no root tag is not recognised: the flow prints the messages of lines
    270 and 277 to 279 and returns at line 280 with nothing written. *)
Theorem doctype_without_root_tag_is_aborted :
  let w := world_of disk [lit "y"] (answering doctype_page) in
  strip doctype_page = doctype_page
  /\ contains (lit "<!doctype html>") (lower (upto 100 doctype_page)) = true
  /\ review_and_apply html_path old_page doctype_page w
     = (Ok (Aborted (Unrecognized doctype_page)), w,
        [Printed NoDoctype; Printed NotValidHtml; Printed First500;
         Printed (Text (upto 500 doctype_page))]).
Proof. vm_compute. done. Qed.

(** C7, on the code. The root tag of [preamble_page] is at offset 210, and
    the text from there on is [new_page]; the preamble holds U+0130 once,
    so line 272 finds the tag at 211 in the lower-cased text, and the page
    written on the operator's yes is the response from 211 on, which
    lacks the opening bracket of the tag. *)
Theorem trim_drops_one_character_too_many :
  let w := world_of disk [lit "y"] (answering preamble_page) in
  let run := review_and_apply html_path old_page preamble_page w in
  strip preamble_page = preamble_page
  /\ first_check_fails preamble_page = true
  /\ find (lit "<html") preamble_page = 210
  /\ from 210 preamble_page = new_page
  /\ run.1.1 = Ok (Done (from 211 preamble_page))
  /\ files run.1.2 !! html_path
     = Some (octets (lit "html><body>Mohammad Burhan, Software Engineer</body></html>")).
Proof. vm_compute. done. Qed.

(** C10, on the code. The root tag of [attribute_page] is at offset 205;
    the preamble holds U+0130 five times, so line 272 finds the tag at 210
    in the lower-cased text, and the page written on the operator's yes
    is the response from 210 on: it begins with the space after the tag
    name, although the response was stripped. *)
Theorem written_page_begins_with_space :
  let w := world_of disk [lit "y"] (answering attribute_page) in
  let run := review_and_apply html_path old_page
               (strip (lit "  " ++ attribute_page ++ nl)) w in
  run.1.1 = Ok (Done attribute_tail)
  /\ Wrote html_path attribute_tail ∈ run.2
  /\ files run.1.2 !! html_path = Some (octets attribute_tail)
  /\ (exists rest, attribute_tail = 32%N :: rest)
  /\ isspace 32 = true.
Proof.
  vm_compute. split; [done|]. split; [|split; [done|split; [by eexists|done]]].
  repeat first [apply list_elem_of_here | apply list_elem_of_further].
Qed.

Lemma missing_pdf_aborts_witness :
  update_resume_flow root page no_pdf_world =
    (Ok (Aborted NoHtmlFile), no_pdf_world,
     [Printed (HtmlNotFound (path_join root page))])
  \/ update_resume_flow root page no_pdf_world =
    (Ok (Aborted NoPdfFile), no_pdf_world,
     [Printed (PdfNotFound (path_join root PDF_RELATIVE_PATH))]).
Proof. apply missing_pdf_aborts. vm_compute. reflexivity. Defined.


Lemma unreadable_cache_starts_fresh_witness :
  let w := broken_cache_world in
  let w' := with_files (<[CACHE_FILENAME := json_dump (table new_page)]> (files w))
                       (called w) in
  _load_cache w = (Ok (Json.Obj []), w, [Opened CACHE_FILENAME])
  /\ cached_generate request w
     = (Ok (Json.Str new_page), w',
        [Opened CACHE_FILENAME; Called request (Content (Some new_page));
         Dumped (table new_page)])
  /\ cached_generate request (without_cache w)
     = (Ok (Json.Str new_page), w',
        [Called request (Content (Some new_page)); Dumped (table new_page)])
  /\ files w' !! CACHE_FILENAME = Some (json_dump (table new_page)).
Proof.
  intros w w'.
  destruct (unreadable_cache_starts_fresh request broken_cache_world
              broken_cache request_key) as (Hload & _ & Hfresh);
    [vm_compute; reflexivity ..|].
  split; [exact Hload|].
  apply (Hfresh (lit "sk-test") (Some new_page));
    [reflexivity | vm_compute; discriminate | reflexivity].
Defined.

Lemma unrecognized_output_is_not_written_witness :
  let w := world_of disk [] (answering refusal) in
  exists l,
    update_resume_flow root page w
    = (Ok (Aborted (Unrecognized refusal)), after_miss refusal w, l)
    /\ Forall quiet l
    /\ files (after_miss refusal w) !! path_join root page
       = files w !! path_join root page.
Proof.
  apply (unrecognized_output_is_not_written root page _ html_path old_page
           refusal _ (miss_log refusal)).
  - vm_compute. reflexivity.
  - vm_compute. reflexivity.
  - vm_compute. discriminate.
Defined.

Lemma decline_leaves_target_and_backup_witness :
  let w := world_of disk [lit "n"] (answering new_page) in
  let w' := answered (after_miss new_page w) in
  (exists candidate, Ok (Cancelled new_page) = Ok (Cancelled candidate))
  /\ Forall untouched
       (miss_log new_page ++ validate_log new_page ++ preview_log new_page
        ++ [Asked AskApply (lit "n"); Printed UpdateCancelled])
  /\ files w' !! path_join root page = files w !! path_join root page
  /\ files w' !! (path_join root page ++ BACKUP_SUFFIX)
     = files w !! (path_join root page ++ BACKUP_SUFFIX).
Proof.
  apply (decline_leaves_target_and_backup root page
           (world_of disk [lit "n"] (answering new_page))
           (Ok (Cancelled new_page))
           (answered (after_miss new_page (world_of disk [lit "n"] (answering new_page))))
           _ (lit "n")).
  - vm_compute. reflexivity.
  - rewrite !elem_of_app. do 3 right. apply list_elem_of_here.
  - vm_compute. reflexivity.
  - vm_compute. discriminate.
Defined.


Import Stage.

(* ===================================================================== *)
(** ** More on the completion client *)
(* ===================================================================== *)

Section ClientMore.
Context `{Libraries}.

(** One pass of the loop of [generate_response], by cases. *)
Lemma attempts_cons messages attempt rest last w :
  attempts messages (attempt :: rest) last w =
  match api_key w with
  | Some (_ :: _) =>
      match endpoint w (calls w) messages with
      | Content text =>
          (Ok (py_text text), called w, [Called messages (Content text)])
      | Raises APIError =>
          match attempts messages rest (Some APIError) (called w) with
          | (r, w', l) =>
              (r, w', [Called messages (Raises APIError);
                       Printed (LlmRetry attempt); Slept (3 * attempt)] ++ l)
          end
      | Raises e =>
          (Raise (LLMFailed (Some e)), called w, [Called messages (Raises e)])
      end
  | _ => (Raise (LLMFailed (Some KeyNotSet)), w, [])
  end.
Proof.
  destruct (api_key w) as [[|c key]|] eqn:Ek.
  - cbn [attempts]. unfold try_, get_api_key. run. by rewrite Ek.
  - assert (c :: key <> []) as Hne by done.
    destruct (endpoint w (calls w) messages) as [text|e] eqn:Ee.
    + by apply (attempts_success _ _ _ _ _ (c :: key)).
    + destruct e;
        try (cbn [attempts]; by rewrite bind_run, (attempt_run _ _ _ Ek Hne), Ee).
      by apply (attempts_retry _ _ _ _ _ (c :: key)).
  - cbn [attempts]. unfold try_, get_api_key. run. by rewrite Ek.
Qed.

Lemma seqZ_cons_pos m n : 0 < n -> seqZ m n = m :: seqZ (m + 1) (n - 1).
Proof. intros Hn. replace (m + 1) with (Z.succ m) by lia. by apply seqZ_cons. Qed.

(** X1. An exception of the call other than [APIError] is not retried:
    [generate_response] raises after that one call, without a delay,
    whatever the retry budget. *)
Theorem other_error_is_not_retried messages retries w key e :
  0 < retries ->
  api_key w = Some key -> key <> [] ->
  endpoint w (calls w) messages = Raises e ->
  e <> APIError ->
  generate_response messages retries w
  = (Raise (LLMFailed (Some e)), called w, [Called messages (Raises e)]).
Proof.
  intros Hr Hk Hne He Hapi. unfold generate_response.
  rewrite (seqZ_cons_pos _ _ Hr), attempts_cons, Hk, He.
  destruct key; [done|]. by destruct e.
Qed.

(** X2. When every attempt raises [APIError], [generate_response] gives up
    after three calls with the last error, having slept after each of
    them, the third included: 3, 6 and 9 seconds. *)
Theorem three_api_errors_exhaust_the_budget messages w key :
  api_key w = Some key -> key <> [] ->
  (forall n, (n < 3)%nat -> endpoint w (calls w + n)%nat messages = Raises APIError) ->
  exists l,
    generate_response messages 3 w
    = (Raise (LLMFailed (Some APIError)), called (called (called w)), l)
    /\ delays l = [3; 6; 9]
    /\ last l = Some (Slept 9).
Proof.
  intros Hk Hne He. unfold generate_response. change (seqZ 1 3) with [1; 2; 3].
  pose proof (He 0%nat ltac:(lia)) as E0. rewrite Nat.add_0_r in E0.
  pose proof (He 1%nat ltac:(lia)) as E1. rewrite Nat.add_1_r in E1.
  pose proof (He 2%nat ltac:(lia)) as E2.
  replace (calls w + 2)%nat with (S (S (calls w))) in E2 by lia.
  destruct key as [|c key]; [done|].
  rewrite !attempts_cons. cbn [api_key endpoint calls called].
  rewrite Hk, E0, E1, E2. cbn [attempts app]. eexists. split; [done|].
  by split.
Qed.

(** X3. With no key in the environment, or an empty one,
    [generate_response] raises at once: the endpoint is not called and
    nothing is delayed or printed. *)
Theorem missing_key_makes_no_call messages retries w :
  0 < retries ->
  api_key w = None \/ api_key w = Some [] ->
  generate_response messages retries w
  = (Raise (LLMFailed (Some KeyNotSet)), w, []).
Proof.
  intros Hr Hk. unfold generate_response.
  rewrite (seqZ_cons_pos _ _ Hr), attempts_cons. by destruct Hk as [-> | ->].
Qed.

Lemma attempts_calls messages todo last w r w' l :
  attempts messages todo last w = (r, w', l) ->
  (calls w <= calls w' <= calls w + length todo)%nat
  /\ stdin w' = stdin w /\ api_key w' = api_key w.
Proof.
  revert last w l. induction todo as [|attempt rest IH]; intros last w l.
  - intros [= <- <- <-]. simpl. split; [lia|done].
  - rewrite attempts_cons.
    destruct (api_key w) as [[|c key]|] eqn:Ek;
      [intros [= <- <- <-]; simpl; split; [lia|done]| |
       intros [= <- <- <-]; simpl; split; [lia|done]].
    destruct (endpoint w (calls w) messages) as [text|e].
    + intros [= <- <- <-]. simpl. split; [lia|done].
    + destruct e; try (intros [= <- <- <-]; simpl; split; [lia|done]).
      destruct (attempts messages rest (Some APIError) (called w))
        as [[r1 w1] l1] eqn:E.
      intros [= <- <- <-]. apply IH in E as (? & ? & ?).
      unfold called in *. simpl in *. split; [lia|]. split; [done|congruence].
Qed.

(** X4. Whatever the endpoint does, [generate_response] calls it at most
    [retries] times, and touches neither the files nor the operator's
    input. *)
Theorem client_stays_within_its_budget messages retries w r w' l :
  generate_response messages retries w = (r, w', l) ->
  (calls w <= calls w' <= calls w + Z.to_nat retries)%nat
  /\ files w' = files w /\ stdin w' = stdin w.
Proof.
  unfold generate_response. intros E.
  pose proof (attempts_files _ _ _ _ _ _ _ E) as Hf.
  apply attempts_calls in E as (Hc & Hs & _).
  by rewrite length_seqZ in Hc.
Qed.

End ClientMore.

Lemma other_error_is_not_retried_witness :
  let w := Scene.world_of Scene.disk [] (Stage.failing RemoteError) in
  generate_response Stage.ask 3 w
  = (Raise (LLMFailed (Some RemoteError)), called w,
     [Called Stage.ask (Raises RemoteError)]).
Proof.
  apply (other_error_is_not_retried Stage.ask 3 _ (lit "sk-test") RemoteError);
    [lia | reflexivity | discriminate | reflexivity | discriminate].
Defined.

Lemma three_api_errors_exhaust_the_budget_witness :
  let w := Scene.world_of Scene.disk [] (Stage.failing APIError) in
  exists l,
    generate_response Stage.ask 3 w
    = (Raise (LLMFailed (Some APIError)), called (called (called w)), l)
    /\ delays l = [3; 6; 9]
    /\ last l = Some (Slept 9).
Proof.
  apply (three_api_errors_exhaust_the_budget Stage.ask _ (lit "sk-test"));
    [reflexivity | discriminate | reflexivity].
Defined.

Lemma missing_key_makes_no_call_witness :
  let w := Stage.keyless (Scene.world_of Scene.disk [] (Scene.answering Scene.new_page)) in
  generate_response Stage.ask 3 w = (Raise (LLMFailed (Some KeyNotSet)), w, []).
Proof.
  apply (missing_key_makes_no_call Stage.ask 3); [lia | left; reflexivity].
Defined.

Lemma client_stays_within_its_budget_witness :
  let w := Scene.world_of Scene.disk [] (Scene.flaky Scene.new_page) in
  let w' := called (called (called w)) in
  (calls w <= calls w' <= calls w + Z.to_nat 3)%nat
  /\ files w' = files w /\ stdin w' = stdin w.
Proof.
  apply (client_stays_within_its_budget Stage.ask 3 _
           (Ok (Json.Str Scene.new_page)) _
           [Called Stage.ask (Raises APIError); Printed (LlmRetry 1); Slept 3;
            Called Stage.ask (Raises APIError); Printed (LlmRetry 2); Slept 6;
            Called Stage.ask (Content (Some Scene.new_page))]).
  vm_compute. reflexivity.
Defined.

(* ===================================================================== *)
(** ** More on the response cache *)
(* ===================================================================== *)

Section CacheMore.
Context `{Libraries}.

(** X5. What [_save_cache] writes is what [_load_cache] returns next,
    when [json.load] reads back what [json.dump] wrote of the table. *)
Theorem saved_cache_loads_back cache w :
  json_load (json_dump cache) = Some cache ->
  (_save_cache cache ≫= fun _ => _load_cache) w
  = (Ok cache,
     with_files (<[CACHE_FILENAME := json_dump cache]> (files w)) w,
     [Dumped cache; Opened CACHE_FILENAME]).
Proof.
  intros Hload. rewrite bind_run, save_cache_run, load_cache_run.
  unfold cache_of, cache_opened. simpl. by rewrite lookup_insert_eq, Hload.
Qed.

(** X6. On a hit [cached_generate] returns the stored value and changes
    nothing: the endpoint is not called, no file is written, and the world
    after is the world before. *)
Theorem hit_returns_stored_value messages w items key i entry :
  cache_of w = Json.Obj items ->
  fingerprint messages = Some key ->
  list_find (fun kv => kv.1 = key) items = Some (i, entry) ->
  cached_generate messages w = (Ok entry.2, w, cache_opened w).
Proof.
  intros Hc Hk Hfind. rewrite cached_generate_run, Hk, Hc. simpl.
  rewrite bool_decide_true.
  - by rewrite Hfind.
  - apply list_find_Some in Hfind as (Hi & <- & _).
    apply list_elem_of_fmap. exists entry. split; [done|].
    by apply list_elem_of_lookup_2 in Hi.
Qed.

(** X7. On a miss the answer goes last in the table and every earlier
    entry stays as it was, in its place; the cache file is rewritten with
    that table and no other file changes. *)
Theorem miss_appends_to_table messages w items key resp w1 l :
  cache_of w = Json.Obj items ->
  fingerprint messages = Some key ->
  key ∉ items.*1 ->
  generate_response messages 3 w = (Ok resp, w1, l) ->
  cached_generate messages w
  = (Ok resp,
     with_files
       (<[CACHE_FILENAME := json_dump (Json.Obj (items ++ [(key, resp)]))]> (files w))
       w1,
     cache_opened w ++ l ++ [Dumped (Json.Obj (items ++ [(key, resp)]))]).
Proof.
  intros Hc Hk Hin Hg. rewrite cached_generate_run, Hk, Hc. simpl.
  rewrite bool_decide_false by done. rewrite Hg, (dict_set_absent _ _ _ Hin).
  unfold generate_response in Hg. by rewrite (attempts_files _ _ _ _ _ _ _ Hg).
Qed.

(** X8. When [cached_generate] raises, whatever the reason, no file has
    changed: a failed completion leaves the cache file as it was. *)
Theorem failure_leaves_files messages w e w' l :
  cached_generate messages w = (Raise e, w', l) -> files w' = files w.
Proof.
  rewrite cached_generate_run.
  destruct (fingerprint messages) as [key|]; [|by intros [= _ <- _]].
  destruct (contains_key key (cache_of w)) as [[|]|e0]; [| |by intros [= _ <- _]].
  - by intros [= _ <- _].
  - destruct (generate_response messages 3 w) as [[[resp|e1] w1] l1] eqn:Eg;
      unfold generate_response in Eg; apply attempts_files in Eg.
    + destruct (setitem (cache_of w) key resp); [done|]. by intros [= _ <- _].
    + by intros [= _ <- _].
Qed.

(** X9. A cache file that holds [null], a boolean or a number makes
    [cached_generate] raise [TypeError] at the membership test of line 93,
    before any call. *)
Theorem scalar_cache_raises_before_call messages w key :
  fingerprint messages = Some key ->
  match cache_of w with
  | Json.Null | Json.Bool _ | Json.Num _ => True
  | _ => False
  end ->
  cached_generate messages w = (Raise TypeError, w, cache_opened w).
Proof.
  intros Hk Hc. rewrite cached_generate_run, Hk.
  by destruct (cache_of w).
Qed.

(** X10. A cache file that holds a JSON list without the key among its
    strings is a miss that cannot be stored: the endpoint is called, and
    when it answers [TypeError] is raised at line 96, the answer is lost
    and the file stays as it was. *)
Theorem list_cache_loses_the_answer messages w items key resp w1 l :
  cache_of w = Json.Arr items ->
  fingerprint messages = Some key ->
  Json.Str key ∉ items ->
  generate_response messages 3 w = (Ok resp, w1, l) ->
  cached_generate messages w = (Raise TypeError, w1, cache_opened w ++ l)
  /\ files w1 = files w.
Proof.
  intros Hc Hk Hin Hg. rewrite cached_generate_run, Hk, Hc. simpl.
  assert (existsb (fun v => match v with
                            | Json.Str s => Py.eqb s key
                            | _ => false
                            end) items = false) as ->.
  { apply not_true_iff_false. intros (v & Hv & Hs)%existsb_exists.
    destruct v; try done. apply bool_decide_eq_true in Hs as ->.
    by apply Hin, list_elem_of_In. }
  rewrite Hg. split; [done|].
  unfold generate_response in Hg. by apply attempts_files in Hg.
Qed.

End CacheMore.

Example ask_fingerprint : fingerprint ask = Some ask_key.
Proof. vm_compute. reflexivity. Qed.

Lemma saved_cache_loads_back_witness :
  (_save_cache (Json.Obj [other_entry]) ≫= fun _ => _load_cache)
    (world_of disk [] (answering new_page))
  = (Ok (Json.Obj [other_entry]),
     with_files (<[CACHE_FILENAME := json_dump (Json.Obj [other_entry])]> disk)
                (world_of disk [] (answering new_page)),
     [Dumped (Json.Obj [other_entry]); Opened CACHE_FILENAME]).
Proof. apply saved_cache_loads_back. vm_compute. reflexivity. Defined.

Lemma hit_returns_stored_value_witness :
  let w := world_of (disk_with (Json.Obj [other_entry; (ask_key, Json.Str new_page)]))
             [] (failing RemoteError) in
  cached_generate ask w = (Ok (Json.Str new_page), w, cache_opened w).
Proof.
  apply (hit_returns_stored_value ask _
           [other_entry; (ask_key, Json.Str new_page)] ask_key 1%nat
           (ask_key, Json.Str new_page));
    vm_compute; reflexivity.
Defined.

Lemma miss_appends_to_table_witness :
  let w := world_of (disk_with (Json.Obj [other_entry])) [] (answering new_page) in
  cached_generate ask w
  = (Ok (Json.Str new_page),
     with_files
       (<[CACHE_FILENAME :=
            json_dump (Json.Obj ([other_entry] ++ [(ask_key, Json.Str new_page)]))]>
          (files w))
       (called w),
     cache_opened w
     ++ [Called ask (Content (Some new_page))]
     ++ [Dumped (Json.Obj ([other_entry] ++ [(ask_key, Json.Str new_page)]))]).
Proof.
  apply (miss_appends_to_table ask _ [other_entry] ask_key).
  - vm_compute. reflexivity.
  - vm_compute. reflexivity.
  - vm_compute. intros Hin. apply list_elem_of_singleton in Hin. discriminate Hin.
  - vm_compute. reflexivity.
Defined.

Lemma failure_leaves_files_witness :
  let w := world_of (disk_with (Json.Obj [other_entry])) [] (failing RemoteError) in
  files (called w) = files w.
Proof.
  apply (failure_leaves_files ask _ (LLMFailed (Some RemoteError)) _
           [Opened CACHE_FILENAME; Called ask (Raises RemoteError)]).
  vm_compute. reflexivity.
Defined.

Lemma scalar_cache_raises_before_call_witness :
  let w := world_of (disk_with Json.Null) [] (answering new_page) in
  cached_generate ask w = (Raise TypeError, w, cache_opened w).
Proof.
  apply (scalar_cache_raises_before_call ask _ ask_key).
  - vm_compute. reflexivity.
  - vm_compute. exact I.
Defined.

Lemma list_cache_loses_the_answer_witness :
  let w := world_of (disk_with (Json.Arr [])) [] (answering new_page) in
  cached_generate ask w
  = (Raise TypeError, called w,
     cache_opened w ++ [Called ask (Content (Some new_page))])
  /\ files (called w) = files w.
Proof.
  apply (list_cache_loses_the_answer ask _ [] ask_key (Json.Str new_page)).
  - vm_compute. reflexivity.
  - vm_compute. reflexivity.
  - intros Hin. by apply elem_of_nil in Hin.
  - vm_compute. reflexivity.
Defined.

Lemma fingerprint_key_order_witness :
  fingerprint ask = fingerprint ask_reordered.
Proof. apply fingerprint_key_order. repeat constructor. Defined.

(* ===================================================================== *)
(** ** More on the file utilities and the PDF text *)
(* ===================================================================== *)

Lemma backup_path_differs path : path <> path ++ BACKUP_SUFFIX.
Proof.
  intros E. apply (f_equal length) in E. rewrite length_app in E.
  unfold BACKUP_SUFFIX, lit in E. simpl in E. lia.
Qed.

Lemma lstrip_blank s : Forall (fun c => isspace c = true) s -> lstrip s = [].
Proof. induction 1 as [|c s Hc _ IH]; simpl; [done|]. by rewrite Hc. Qed.

Lemma strip_blank s : Forall (fun c => isspace c = true) s -> strip s = [].
Proof. intros Hs. unfold strip, rstrip. by rewrite (lstrip_blank _ Hs). Qed.

Lemma join_blank pages :
  Forall blank pages ->
  Forall (fun c => isspace c = true) (join nl (map (default []) pages)).
Proof.
  induction 1 as [|p pages Hp Hps IH]; simpl; [constructor|].
  destruct pages as [|q pages]; [done|].
  apply Forall_app. split; [done|]. by constructor.
Qed.

Section FilesMore.
Context `{Libraries}.

Lemma extract_pdf_text_run p w :
  extract_pdf_text p w =
  match files w !! p with
  | Some b =>
      match pdf_pages b with
      | Some pages => (Ok (pdf_text_of pages), w, [Opened p])
      | None => (Raise PdfReadError, w, [Opened p])
      end
  | None => (Raise (FileNotFoundError p), w, [])
  end.
Proof.
  unfold extract_pdf_text. run.
  destruct (files w !! p) as [b|]; [|done]. run. by destruct (pdf_pages b).
Qed.

(** X12. [backup_file] leaves at the path with the suffix the octets of
    the file, which it does not change, nor any other file; the backup it
    replaces, if any, is lost. *)
Theorem backup_holds_a_copy path w b :
  files w !! path = Some b ->
  exists w',
    backup_file path w
    = (Ok (path ++ BACKUP_SUFFIX), w', [Copied path (path ++ BACKUP_SUFFIX)])
    /\ files w' !! (path ++ BACKUP_SUFFIX) = Some b
    /\ files w' !! path = Some b
    /\ (forall p, p <> path ++ BACKUP_SUFFIX -> files w' !! p = files w !! p).
Proof.
  intros Hb. rewrite backup_file_run, Hb. eexists. split; [done|]. simpl.
  split; [by rewrite lookup_insert_eq|].
  split; [by rewrite lookup_insert_ne by (symmetry; apply backup_path_differs)|].
  intros p Hp. by rewrite lookup_insert_ne.
Qed.

(** X13. A text with a code point that UTF-8 cannot encode empties the
    file it is written to: [write_file] raises after the file was opened
    for writing, and what the file held is gone. *)
Theorem unencodable_text_empties_file path content w :
  Utf8.encode content = None ->
  exists w',
    write_file path content w = (Raise UnicodeEncodeError, w', [Wrote path content])
    /\ files w' !! path = Some []
    /\ (forall p, p <> path -> files w' !! p = files w !! p).
Proof.
  intros He. rewrite write_file_run, He. eexists. split; [done|]. simpl.
  split; [by rewrite lookup_insert_eq|].
  intros p Hp. by rewrite lookup_insert_ne.
Qed.

(** X14. A PDF whose pages have no text, or white space only, gives the
    empty text, with no error: [extract_pdf_text] puts the empty string
    for such a page and strips the result. *)
Theorem blank_pages_give_empty_text pdf_path w b pages :
  files w !! pdf_path = Some b ->
  pdf_pages b = Some pages ->
  Forall blank pages ->
  extract_pdf_text pdf_path w = (Ok [], w, [Opened pdf_path]).
Proof.
  intros Hb Hp Hblank. rewrite extract_pdf_text_run, Hb, Hp.
  unfold pdf_text_of. by rewrite (strip_blank _ (join_blank _ Hblank)).
Qed.

(** X15. The text [extract_pdf_text] returns neither begins nor ends with
    white space, and reading it changes nothing. *)
Theorem pdf_text_has_no_blank_edge pdf_path w text w' l :
  extract_pdf_text pdf_path w = (Ok text, w', l) ->
  w' = w
  /\ (forall c rest, text = c :: rest -> isspace c = false)
  /\ (forall c rest, text = rest ++ [c] -> isspace c = false).
Proof.
  rewrite extract_pdf_text_run.
  destruct (files w !! pdf_path) as [b|]; [|done].
  destruct (pdf_pages b) as [pages|]; [|done].
  intros [= <- <- _]. split; [done|]. unfold pdf_text_of.
  split; intros c rest E; [by eapply strip_head | by eapply strip_last].
Qed.

(** X16. When the file at the PDF path cannot be read as a PDF, the flow
    raises [PdfReadError] after opening both files: the endpoint is not
    called, the operator is not asked, and the world is as before. *)
Theorem unreadable_pdf_raises root rel w bh bp :
  files w !! path_join root rel = Some bh ->
  files w !! path_join root PDF_RELATIVE_PATH = Some bp ->
  pdf_pages bp = None ->
  update_resume_flow root rel w
  = (Raise PdfReadError, w,
     [Printed (ReadingHtml (path_join root rel)); Opened (path_join root rel);
      Printed (ReadingPdf (path_join root PDF_RELATIVE_PATH));
      Opened (path_join root PDF_RELATIVE_PATH)]).
Proof.
  intros Hh Hp Hpdf.
  rewrite update_resume_flow_run, generate_candidate_run. cbv zeta.
  by rewrite Hh, Hp, Hpdf.
Qed.

End FilesMore.

Lemma backup_holds_a_copy_witness :
  let w := world_of disk [] (answering new_page) in
  exists w',
    backup_file html_path w
    = (Ok (html_path ++ BACKUP_SUFFIX), w',
       [Copied html_path (html_path ++ BACKUP_SUFFIX)])
    /\ files w' !! (html_path ++ BACKUP_SUFFIX) = Some (octets old_page)
    /\ files w' !! html_path = Some (octets old_page)
    /\ (forall p, p <> html_path ++ BACKUP_SUFFIX ->
        files w' !! p = files w !! p).
Proof. apply backup_holds_a_copy. vm_compute. reflexivity. Defined.

Lemma unencodable_text_empties_file_witness :
  let w := world_of disk [] (answering surrogate_page) in
  exists w',
    write_file html_path surrogate_page w
    = (Raise UnicodeEncodeError, w', [Wrote html_path surrogate_page])
    /\ files w' !! html_path = Some []
    /\ (forall p, p <> html_path -> files w' !! p = files w !! p).
Proof. apply unencodable_text_empties_file. vm_compute. reflexivity. Defined.

Lemma blank_pages_give_empty_text_witness :
  let w := world_of disk [] (answering new_page) in
  @extract_pdf_text scanned pdf_path w = (Ok [], w, [Opened pdf_path]).
Proof.
  apply (@blank_pages_give_empty_text scanned pdf_path _ resume_pdf
           [None; Some (lit " "); None]).
  - vm_compute. reflexivity.
  - reflexivity.
  - repeat constructor.
Defined.

Lemma pdf_text_has_no_blank_edge_witness :
  let w := world_of disk [] (answering new_page) in
  w = w
  /\ (forall c rest, pdf_text = c :: rest -> isspace c = false)
  /\ (forall c rest, pdf_text = rest ++ [c] -> isspace c = false).
Proof.
  apply (pdf_text_has_no_blank_edge pdf_path _ pdf_text _ [Opened pdf_path]).
  vm_compute. reflexivity.
Defined.

Lemma unreadable_pdf_raises_witness :
  let w := world_of torn_disk [] (answering new_page) in
  update_resume_flow root page w
  = (Raise PdfReadError, w,
     [Printed (ReadingHtml (path_join root page)); Opened (path_join root page);
      Printed (ReadingPdf (path_join root PDF_RELATIVE_PATH));
      Opened (path_join root PDF_RELATIVE_PATH)]).
Proof.
  apply (unreadable_pdf_raises root page _ (octets old_page)
           (octets (lit "not a pdf")));
    vm_compute; reflexivity.
Defined.

(* ===================================================================== *)
(** ** More on the update flow *)
(* ===================================================================== *)

Lemma beside_preorder hp : PreOrder (beside hp).
Proof.
  split; [by intros w p | intros w1 w2 w3 H12 H23 p Hp Hb].
  by rewrite H23, H12.
Qed.

Lemma same_input_preorder : PreOrder same_input.
Proof.
  split; [by intros w | intros w1 w2 w3 H12 H23].
  unfold same_input in *. congruence.
Qed.

Lemma answers_app l1 l2 : answers (l1 ++ l2) = answers l1 ++ answers l2.
Proof. apply omap_app. Qed.

Lemma unasked_answers l : Forall unasked l -> answers l = [].
Proof.
  induction 1 as [|e l He _ IH]; [done|].
  by destruct e.
Qed.

Lemma quiet_unasked l : Forall quiet l -> Forall unasked l.
Proof. intros Hq. apply (Forall_impl _ _ _ Hq). by intros []. Qed.

Lemma delays_app l1 l2 : delays (l1 ++ l2) = delays l1 ++ delays l2.
Proof. apply omap_app. Qed.

Section FlowMore.
Context `{Libraries}.

#[local] Hint Resolve beside_preorder same_input_preorder : frames.

Lemma exists_beside hp p : run_ok (beside hp) (on_target hp) (exists_ p).
Proof. run_prim. Qed.

Lemma input_beside hp p : run_ok (beside hp) (on_target hp) (input p).
Proof. run_prim. Qed.

Lemma backup_file_beside hp :
  run_ok (beside hp) (on_target hp) (backup_file hp).
Proof. unfold backup_file. run_prim. by rewrite lookup_insert_ne. Qed.

Lemma write_file_beside hp c :
  run_ok (beside hp) (on_target hp) (write_file hp c).
Proof. unfold write_file. run_prim; by rewrite lookup_insert_ne. Qed.

#[local] Hint Resolve exists_beside input_beside backup_file_beside
  write_file_beside : frames.

Lemma backup_and_apply_beside hp hc u :
  run_ok (beside hp) (on_target hp) (backup_and_apply hp hc u).
Proof. unfold backup_and_apply, apply_update. frame. Qed.

Lemma backup_file_same_input p : run_ok same_input unasked (backup_file p).
Proof. unfold backup_file. run_prim. Qed.

Lemma write_file_same_input p c : run_ok same_input unasked (write_file p c).
Proof. unfold write_file. run_prim. Qed.

#[local] Hint Resolve backup_file_same_input write_file_same_input : frames.

Lemma apply_update_same_input b hp hc u :
  run_ok same_input unasked (apply_update b hp hc u).
Proof. unfold apply_update. frame. Qed.

Lemma candidate_path root rel w hp hc u w1 l1 :
  generate_candidate root rel w = (Ok (Candidate hp hc u), w1, l1) ->
  hp = path_join root rel.
Proof.
  rewrite generate_candidate_run. cbv zeta.
  destruct (files w !! path_join root rel); [|done].
  destruct (files w !! path_join root PDF_RELATIVE_PATH) as [bp|]; [|done].
  destruct (pdf_pages bp) as [pages|]; [|done].
  destruct (cached_generate _ w) as [[[resp|e] w'] l]; [|done].
  destruct (strip_value resp) as [u'|]; [|done]. by intros [= <- _ _ _ _].
Qed.

(** X17. Whatever the endpoint answers and the operator types, a run of
    the flow changes no file but the target, its backup and the cache
    file. *)
Theorem flow_changes_three_files_at_most root rel w r w' l p :
  update_resume_flow root rel w = (r, w', l) ->
  p <> path_join root rel ->
  p <> path_join root rel ++ BACKUP_SUFFIX ->
  p <> CACHE_FILENAME ->
  files w' !! p = files w !! p.
Proof.
  rewrite update_resume_flow_run. intros E Hp Hb Hc.
  destruct (generate_candidate root rel w) as [[[[o|hp hc u]|e] w1] l1] eqn:Eg;
    destruct (generate_candidate_off_cache _ _ _ _ _ _ Eg) as [Hf _].
  - injection E as <- <- <-. by apply Hf.
  - apply candidate_path in Eg as ->.
    destruct (checked u) as [u'|]; [|injection E as <- <- <-; by apply Hf].
    destruct (backup_and_apply _ hc u' w1) as [[r2 w2] l2] eqn:Eb.
    injection E as <- <- <-.
    destruct (backup_and_apply_beside _ _ _ _ _ _ _ Eb) as [Hb2 _].
    rewrite Hb2 by done. by apply Hf.
  - injection E as <- <- <-. by apply Hf.
Qed.

Lemma cached_generate_bounds messages w r w' l :
  cached_generate messages w = (r, w', l) ->
  (calls w <= calls w' <= calls w + 3)%nat /\ stdin w' = stdin w.
Proof.
  rewrite cached_generate_run.
  destruct (fingerprint messages) as [key|];
    [|intros [= _ <- _]; split; [lia|done]].
  destruct (contains_key key (cache_of w)) as [[|]|e0];
    [intros [= _ <- _]; split; [lia|done]| |
     intros [= _ <- _]; split; [lia|done]].
  destruct (generate_response messages 3 w) as [[[resp|e1] w1] l1] eqn:Eg;
    unfold generate_response in Eg; apply attempts_calls in Eg as (Hc & Hs & _);
    change (length (seqZ 1 3)) with 3%nat in Hc.
  - destruct (setitem (cache_of w) key resp); by intros [= _ <- _].
  - by intros [= _ <- _].
Qed.

Lemma generate_candidate_bounds root rel w r w' l :
  generate_candidate root rel w = (r, w', l) ->
  (calls w <= calls w' <= calls w + 3)%nat /\ stdin w' = stdin w.
Proof.
  rewrite generate_candidate_run. cbv zeta.
  destruct (files w !! path_join root rel);
    [|intros [= _ <- _]; split; [lia|done]].
  destruct (files w !! path_join root PDF_RELATIVE_PATH) as [bp|];
    [|intros [= _ <- _]; split; [lia|done]].
  destruct (pdf_pages bp) as [pages|]; [|intros [= _ <- _]; split; [lia|done]].
  destruct (cached_generate _ w) as [[[resp|e] w1] l1] eqn:Ec;
    apply cached_generate_bounds in Ec; by intros [= _ <- _].
Qed.

Lemma ask_apply_input b hp hc u w r w' l :
  (answer ← input AskApply;
   if says_yes answer then apply_update b hp hc u
   else print UpdateCancelled;; ret (Cancelled u)) w = (r, w', l) ->
  stdin w = answers l ++ stdin w' /\ (length (answers l) <= 1)%nat.
Proof.
  rewrite bind_run, input_run.
  destruct (stdin w) as [|a rest] eqn:Es.
  - intros [= _ <- <-]. simpl. split; [done|lia].
  - destruct (says_yes a).
    + destruct (apply_update b hp hc u _) as [[r1 w1] l1] eqn:Ea.
      intros [= _ <- <-].
      destruct (apply_update_same_input _ _ _ _ _ _ _ _ Ea) as [Hs Hu].
      unfold same_input in Hs. simpl in Hs.
      change (answers (Asked AskApply a :: l1)) with (a :: answers l1).
      rewrite (unasked_answers _ Hu), Hs. simpl. split; [done|lia].
    + run. intros [= _ <- <-]. simpl. split; [done|lia].
Qed.

Lemma backup_and_apply_input hp hc u w r w' l :
  backup_and_apply hp hc u w = (r, w', l) ->
  stdin w = answers l ++ stdin w' /\ (length (answers l) <= 2)%nat.
Proof.
  unfold backup_and_apply. rewrite exists_bind.
  intros [(bn & w1 & l1 & l2 & E1 & E2 & ->)|(e & E1 & ->)]%bind_inv.
  - apply ask_apply_input in E2 as [E2 Hn]. rewrite answers_app.
    destruct (bool_decide _).
    + rewrite bind_run, input_run in E1.
      destruct (stdin w) as [|a rest] eqn:Es; [done|].
      revert E1. run. intros [= _ <- <-]. simpl in E2.
      change (answers [Asked AskNewBackup a]) with [a]. simpl.
      rewrite E2. split; [done|lia].
    + revert E1. run. intros [= _ <- <-]. simpl. split; [done|lia].
  - destruct (bool_decide _); [|done].
    rewrite bind_run, input_run in E1.
    destruct (stdin w) as [|a rest] eqn:Es; [|revert E1; by run].
    injection E1 as <- <- <-. rewrite Es. simpl. split; [done|lia].
Qed.

(** X18. A run of the flow calls the endpoint at most three times and
    reads at most two lines of the operator: the lines read are the
    answers of its log, and the rest is left for what runs next. *)
Theorem flow_calls_and_asks_within_bounds root rel w r w' l :
  update_resume_flow root rel w = (r, w', l) ->
  (calls w <= calls w' <= calls w + 3)%nat
  /\ stdin w = answers l ++ stdin w'
  /\ (length (answers l) <= 2)%nat.
Proof.
  rewrite update_resume_flow_run. intros E.
  destruct (generate_candidate root rel w) as [[[[o|hp hc u]|e] w1] l1] eqn:Eg;
    destruct (generate_candidate_off_cache _ _ _ _ _ _ Eg) as [_ Hq];
    apply quiet_unasked, unasked_answers in Hq;
    apply generate_candidate_bounds in Eg as [Hc Hs].
  - injection E as <- <- <-. rewrite Hq, Hs. simpl. split; [done|]. split; [done|lia].
  - pose proof (unasked_answers _ (quiet_unasked _
        (printing_quiet _ (validate_log_printing u)))) as Hv.
    destruct (checked u) as [u'|].
    + destruct (backup_and_apply hp hc u' w1) as [[r2 w2] l2] eqn:Eb.
      pose proof (unasked_answers _ (quiet_unasked _
          (printing_quiet _ (preview_log_printing u')))) as Hpv.
      revert E Hv Hpv. generalize (validate_log u), (preview_log u').
      intros lv lp E Hv Hpv. injection E as <- <- <-.
      destruct (backup_and_apply_offline _ _ _ _ _ _ _ Eb) as [Hsame _].
      apply backup_and_apply_input in Eb as [Hin Hn].
      unfold same_calls in Hsame.
      rewrite !answers_app, Hq, Hv, Hpv, Hsame, <- Hs. simpl. by split.
    + revert E Hv. generalize (validate_log u). intros lv E Hv.
      injection E as <- <- <-. rewrite answers_app, Hq, Hv, Hs. simpl.
      split; [done|]. split; [done|lia].
  - injection E as <- <- <-. rewrite Hq, Hs. simpl. split; [done|]. split; [done|lia].
Qed.

End FlowMore.

(* ===================================================================== *)
(** ** More on the confirmation and the written page *)
(* ===================================================================== *)

Lemma summary_log_printing hc u : Forall printing (summary_log hc u).
Proof. unfold summary_log. repeat case_match; by repeat constructor. Qed.


Lemma lower_one c : lower [c] = lit "y" -> c = 121%N \/ c = 89%N.
Proof.
  unfold lower, lower_char. simpl.
  destruct ((65 <=? c)%N && (c <=? 90)%N) eqn:Ecap.
  - intros [= E]. right. lia.
  - destruct (c =? 304)%N; [done|]. destruct (c =? 8490)%N; [done|].
    intros [= ->]. by left.
Qed.

Lemma lower_char_not_nil c : lower_char c <> [].
Proof. unfold lower_char. by repeat case_match. Qed.

Lemma lower_nil s : lower s = [] -> s = [].
Proof.
  destruct s as [|c s]; [done|]. unfold lower. simpl.
  intros [E _]%app_eq_nil. by apply lower_char_not_nil in E.
Qed.

(** X19. The operator's answer counts as a yes exactly when, with the
    white space at its ends removed, it is the one letter [y] or [Y]. *)
Theorem says_yes_iff answer :
  says_yes answer = true <-> strip answer = lit "y" \/ strip answer = lit "Y".
Proof.
  unfold says_yes, Py.eqb. rewrite bool_decide_eq_true. split.
  - destruct (strip answer) as [|c [|d t]]; [done| |].
    + intros [-> | ->]%lower_one; [by left | by right].
    + unfold lower. simpl. intros E.
      pose proof (lower_char_not_nil c) as Hc. pose proof (lower_char_not_nil d) as Hd.
      apply (f_equal length) in E. rewrite !length_app in E. simpl in E.
      destruct (lower_char c), (lower_char d); simpl in E; try done; lia.
  - by intros [-> | ->].
Qed.

Section ApplyMore.
Context `{Libraries}.




(** X22. When the operator's lines run out before the question of the
    update is answered (no line is left, or the one line left answers
    the question of a new backup), the confirmation stage raises
    [EOFError] with every file as it was: nothing is copied or written. *)
Theorem end_of_input_changes_nothing (hp hc u : str) w :
  stdin w = []
  \/ (is_Some (files w !! (hp ++ BACKUP_SUFFIX)) /\ exists a, stdin w = [a]) ->
  backup_and_apply hp hc u w
  = (Raise EOFError, World (files w) [] (api_key w) (endpoint w) (calls w),
     map (Asked AskNewBackup) (stdin w)).
Proof.
  intros Hin. unfold backup_and_apply. rewrite exists_bind.
  destruct Hin as [Hs|[Hbk [a Hs]]].
  - assert (w = World (files w) [] (api_key w) (endpoint w) (calls w)) as Hw
      by (destruct w; simpl in *; by subst).
    rewrite Hs. simpl. rewrite <- Hw.
    destruct (bool_decide _).
    + by rewrite !bind_run, input_run, Hs.
    + run. by rewrite input_run, Hs.
  - replace (bool_decide _) with true
      by (symmetry; apply bool_decide_eq_true; exact Hbk).
    rewrite !bind_run, input_run, Hs. run. by rewrite input_run.
Qed.


Lemma attempts_ok_called messages todo last w v w' l :
  attempts messages todo last w = (Ok v, w', l) -> (calls w < calls w')%nat.
Proof.
  revert last w l. induction todo as [|attempt rest IH]; intros last w l; [done|].
  rewrite attempts_cons.
  destruct (api_key w) as [[|c key]|]; [done| |done].
  destruct (endpoint w (calls w) messages) as [text|e].
  - intros [= _ <- _]. simpl. lia.
  - destruct e; try done.
    destruct (attempts messages rest (Some APIError) (called w))
      as [[r1 w1] l1] eqn:E.
    intros [= -> <- _]. apply IH in E. simpl in E. lia.
Qed.

(** X24. A run that takes the response from the cache waits all the
    same: when the flow reaches a candidate without a call, it has slept
    the fifteen seconds of line 264 and nothing else, and the world is as
    before. *)
Theorem cached_answer_waits_all_the_same root rel w hp hc u w1 l1 :
  generate_candidate root rel w = (Ok (Candidate hp hc u), w1, l1) ->
  calls w1 = calls w ->
  delays l1 = [MODEL_WAIT_SECONDS] /\ w1 = w.
Proof.
  rewrite generate_candidate_run. cbv zeta.
  destruct (files w !! path_join root rel) as [bh|]; [|done].
  destruct (files w !! path_join root PDF_RELATIVE_PATH) as [bp|]; [|done].
  destruct (pdf_pages bp) as [pages|]; [|done].
  rewrite cached_generate_run.
  destruct (fingerprint _) as [key|]; [|done].
  destruct (contains_key key (cache_of w)) as [[|]|e0]; [| |done].
  - destruct (getitem (cache_of w) key) as [resp|]; [|done].
    destruct (strip_value resp); [|done].
    intros [= _ _ _ <- <-] _. split; [|done].
    unfold delays, cache_opened. by destruct (files w !! CACHE_FILENAME).
  - destruct (generate_response _ 3 w) as [[[resp|e1] w2] l2] eqn:Eg; [|done].
    apply attempts_ok_called in Eg.
    destruct (setitem (cache_of w) key resp); [|done].
    destruct (strip_value resp); [|done].
    intros [= _ _ _ <- _]. simpl. lia.
Qed.

End ApplyMore.

Lemma flow_changes_three_files_at_most_witness :
  let w := world_of disk [lit "y"] (answering new_page) in
  let run := update_resume_flow root page w in
  files run.1.2 !! pdf_path = files w !! pdf_path.
Proof.
  intros w run.
  apply (flow_changes_three_files_at_most root page w run.1.1 run.1.2 run.2 pdf_path).
  - subst run. destruct (update_resume_flow root page w) as [[r w'] l]. reflexivity.
  - vm_compute. discriminate.
  - vm_compute. discriminate.
  - vm_compute. discriminate.
Defined.

Lemma flow_calls_and_asks_within_bounds_witness :
  let w := world_of disk [lit "y"] (answering new_page) in
  let run := update_resume_flow root page w in
  (calls w <= calls run.1.2 <= calls w + 3)%nat
  /\ stdin w = answers run.2 ++ stdin run.1.2
  /\ (length (answers run.2) <= 2)%nat.
Proof.
  intros w run.
  apply (flow_calls_and_asks_within_bounds root page w run.1.1 run.1.2 run.2).
  subst run. destruct (update_resume_flow root page w) as [[r w'] l]. reflexivity.
Defined.



Lemma end_of_input_changes_nothing_witness :
  let w := world_of backed_up_disk [lit "y"] (answering new_page) in
  backup_and_apply html_path old_page new_page w
  = (Raise EOFError, world_of backed_up_disk [] (answering new_page),
     [Asked AskNewBackup (lit "y")]).
Proof.
  intros w.
  etrans; [apply (end_of_input_changes_nothing html_path old_page new_page w)|].
  - right. split; [vm_compute; by eexists|]. by exists (lit "y").
  - reflexivity.
Defined.


Lemma cached_answer_waits_all_the_same_witness :
  let w := after_miss new_page (world_of disk [lit "n"] (answering new_page)) in
  delays (reading_log html_path pdf_path old_page pdf_text ++ [Opened CACHE_FILENAME])
  = [MODEL_WAIT_SECONDS]
  /\ w = w.
Proof.
  intros w.
  apply (cached_answer_waits_all_the_same root page w html_path old_page new_page).
  - vm_compute. reflexivity.
  - reflexivity.
Defined.

Lemma checked_edges_witness :
  (forall x t, new_page = x :: t -> isspace x = false)
  /\ (forall x t, new_page = t ++ [x] -> isspace x = false).
Proof.
  apply (checked_edges (lit "  Here is the page: " ++ repeat 45%N 200
                        ++ new_page ++ nl) new_page).
  - apply (bool_decide_eq_true_1 _). vm_compute. reflexivity.
  - vm_compute. reflexivity.
Defined.

(* ===================================================================== *)
(** ** The command loop *)
(* ===================================================================== *)

Lemma reads_on_preorder : PreOrder reads_on.
Proof.
  split; [intros w; unfold reads_on; reflexivity | intros w1 w2 w3 H12 H23].
  unfold reads_on in *. by etrans.
Qed.

Lemma lstrip_nil_blank s : lstrip s = [] -> Forall (fun c => isspace c = true) s.
Proof.
  induction s as [|c s IH]; simpl; [constructor|].
  destruct (isspace c) eqn:E; [|done]. intros Hs. constructor; auto.
Qed.

Lemma lstrip_lstrip s : lstrip (lstrip s) = lstrip s.
Proof.
  induction s as [|c s IH]; simpl; [done|].
  destruct (isspace c) eqn:E; [done|]. simpl. by rewrite E.
Qed.

(** A stripped text does not end with white space. *)
Lemma strip_not_blank_end line a t :
  strip line = a ++ t -> t <> [] -> Forall (fun c => isspace c = true) t -> False.
Proof.
  intros E Ht Hb. destruct (exists_last Ht) as (t' & c & ->).
  apply Forall_app in Hb as [_ Hc%Forall_inv].
  rewrite app_assoc in E. apply strip_last in E. simpl in Hc. congruence.
Qed.

Lemma split1_update line t :
  strip line = lit "update " ++ t ->
  split1 (strip line) = [lit "update"; lstrip t] /\ lstrip t <> [].
Proof.
  intros E.
  assert (lstrip t <> []) as Hne.
  { intros Hn. apply lstrip_nil_blank in Hn.
    apply (strip_not_blank_end line (lit "update") (32%N :: t)); [done|done|].
    by constructor. }
  split; [|done]. rewrite E. unfold split1. simpl.
  destruct (lstrip t) eqn:Et; [done|]. done.
Qed.

Lemma flow_events_listed names :
  flow_events (map (fun file => Said (Listed file)) names) = [].
Proof. induction names as [|file names IH]; [done|]. exact IH. Qed.

Lemma flow_events_app l1 l2 :
  flow_events (l1 ++ l2) = flow_events l1 ++ flow_events l2.
Proof. apply omap_app. Qed.

Lemma startswith_split p s : startswith p s = true -> exists t, s = p ++ t.
Proof. by intros [t ->]%startswith_prefix; exists t. Qed.

(** The lines still to read are a suffix of those there were. *)
Ltac reads := first [by exists [] | by eexists [_]].

Section ShellProofs.
Context `{Libraries}.
Variable listdir : world -> str -> result (list str).

#[local] Hint Resolve reads_on_preorder : frames.

Lemma exists_reads_on p : run_ok reads_on (fun _ => True) (exists_ p).
Proof. run_prim; reads. Qed.

Lemma input_reads_on p : run_ok reads_on (fun _ => True) (input p).
Proof. run_prim; reads. Qed.

Lemma read_file_reads_on p : run_ok reads_on (fun _ => True) (read_file p).
Proof. unfold read_file. run_prim; reads. Qed.

Lemma extract_pdf_text_reads_on p :
  run_ok reads_on (fun _ => True) (extract_pdf_text p).
Proof. unfold extract_pdf_text. run_prim; reads. Qed.

Lemma get_api_key_reads_on : run_ok reads_on (fun _ => True) get_api_key.
Proof. unfold get_api_key. run_prim; reads. Qed.

Lemma completion_reads_on m : run_ok reads_on (fun _ => True) (completion m).
Proof. run_prim; reads. Qed.

Lemma load_cache_reads_on : run_ok reads_on (fun _ => True) _load_cache.
Proof. unfold _load_cache. run_prim; reads. Qed.

Lemma save_cache_reads_on c : run_ok reads_on (fun _ => True) (_save_cache c).
Proof. unfold _save_cache. run_prim; reads. Qed.

Lemma backup_file_reads_on p : run_ok reads_on (fun _ => True) (backup_file p).
Proof. unfold backup_file. run_prim; reads. Qed.

Lemma write_file_reads_on p c :
  run_ok reads_on (fun _ => True) (write_file p c).
Proof. unfold write_file. run_prim; reads. Qed.

#[local] Hint Resolve exists_reads_on input_reads_on read_file_reads_on
  extract_pdf_text_reads_on get_api_key_reads_on completion_reads_on
  load_cache_reads_on save_cache_reads_on backup_file_reads_on
  write_file_reads_on : frames.

Lemma attempts_reads_on m todo last :
  run_ok reads_on (fun _ => True) (attempts m todo last).
Proof.
  revert last. induction todo as [|attempt rest IH]; intros last; simpl; frame.
Qed.
#[local] Hint Resolve attempts_reads_on : frames.

Lemma update_resume_flow_reads_on root rel :
  run_ok reads_on (fun _ => True) (update_resume_flow root rel).
Proof.
  unfold update_resume_flow, generate_candidate, cached_generate,
    generate_response, review_and_apply, validate, preview, backup_and_apply,
    apply_update.
  frame.
Qed.

Lemma run_flow_reads_on root path w r w' l :
  run_flow root path w = (r, w', l) -> reads_on w w'.
Proof.
  unfold run_flow.
  destruct (update_resume_flow root path w) as [[r0 w0] l0] eqn:E.
  apply update_resume_flow_reads_on in E as [E _].
  destruct r0; by intros [= _ <- _].
Qed.

Lemma run_flow_log root path w r w' l :
  run_flow root path w = (r, w', l) -> exists l0, l = map Flow l0.
Proof.
  unfold run_flow.
  destruct (update_resume_flow root path w) as [[r0 w0] l0] eqn:E.
  destruct r0; intros [= _ _ <-]; by eexists.
Qed.

Lemma run_flow_next root path w r w' l :
  run_flow root path w = (r, w', l) -> r <> Ok Break.
Proof.
  unfold run_flow.
  destruct (update_resume_flow root path w) as [[[o|e] w0] l0];
    by intros [= <- _ _].
Qed.

Lemma update_first_run root paths w :
  update_first root paths w =
  match list_find (fun p => is_Some (files w !! path_join root p)) paths with
  | Some (_, p) => run_flow root p w
  | None => (Ok Continue, w, [Said ResumeNotFound])
  end.
Proof.
  induction paths as [|p paths IH]; [done|].
  cbn [update_first list_find]. rewrite IH.
  destruct (decide (is_Some (files w !! path_join root p))) as [Hs|Hs].
  - by rewrite bool_decide_true.
  - rewrite bool_decide_false by done.
    by destruct (list_find _ paths) as [[i q]|].
Qed.

(** One command, by cases of the stripped line. *)
Lemma dispatch_cases root line w r w' l :
  dispatch listdir root (strip line) w = (r, w', l) ->
  reads_on w w'
  /\ Forall (fun e => e <> Said UsageLine /\ forall a, e <> Typed a) l
  /\ (no_update line -> w' = w /\ flow_events l = [])
  /\ (r = Ok Break -> strip line = lit "exit" /\ l = []).
Proof.
  assert (reads_on w w) as Hrefl by (unfold reads_on; reflexivity).
  assert (forall path,
    run_flow root path w = (r, w', l) ->
    reads_on w w'
    /\ Forall (fun e => e <> Said UsageLine /\ forall a, e <> Typed a) l
    /\ r <> Ok Break) as Hflow.
  { intros path E. split; [by apply run_flow_reads_on in E|].
    split; [|by apply run_flow_next in E].
    apply run_flow_log in E as [l0 ->]. apply Forall_fmap, Forall_forall.
    by intros e _. }
  unfold dispatch, no_update.
  destruct (bool_decide (strip line = []));
    [intros [= <- <- <-]; by repeat split|].
  destruct (Py.eqb (strip line) (lit "exit")) eqn:Eexit.
  { apply bool_decide_eq_true in Eexit. intros [= <- <- <-]. by repeat split. }
  destruct (Py.eqb (strip line) (lit "ls")).
  { destruct (listdir w root) as [names|e]; intros [= <- <- <-];
      [|by repeat split].
    split; [done|]. split; [|split; [|done]].
    - apply Forall_fmap, Forall_forall. by intros file _.
    - intros _. split; [done|]. apply flow_events_listed. }
  destruct (Py.eqb (strip line) (lit "update resume")) eqn:Eur.
  { apply bool_decide_eq_true in Eur. rewrite Eur, update_first_run.
    destruct (list_find _ _) as [[i p]|].
    - intros (? & ? & ?)%Hflow. by repeat split.
    - intros [= <- <- <-]. repeat split; try done. by repeat constructor. }
  destruct (startswith (lit "update ") (strip line)) eqn:Eu.
  { destruct (startswith_split _ _ Eu) as [t Et].
    destruct (split1_update line t Et) as [-> _]. rewrite Et.
    intros (? & ? & ?)%Hflow. by repeat split. }
  intros [= <- <- <-]. repeat split; try done. by repeat constructor.
Qed.

Lemma read_command_run w :
  read_command w =
  match stdin w with
  | [] => (Raise EOFError, w, [])
  | line :: rest =>
      (Ok line, World (files w) rest (api_key w) (endpoint w) (calls w),
       [Typed line])
  end.
Proof. reflexivity. Qed.

(** A run of the loop, whatever the fuel. *)
Lemma command_loop_spec fuel root w r w' l :
  command_loop listdir fuel root w = Some (r, w', l) ->
  reads_on w w'
  /\ Forall (fun e => e <> Said UsageLine) l
  /\ (r = Ok tt ->
      exists l0 line, l = l0 ++ [Typed line] /\ strip line = lit "exit")
  /\ (Forall no_update (stdin w) ->
      files w' = files w /\ calls w' = calls w /\ flow_events l = []).
Proof.
  revert w r w' l. induction fuel as [|fuel IH]; intros w r w' l; [done|].
  cbn [command_loop]. rewrite read_command_run.
  destruct (stdin w) as [|line rest] eqn:Es.
  { intros [= <- <- <-]. split; [unfold reads_on; reflexivity|]. by repeat split. }
  set (w1 := World (files w) rest (api_key w) (endpoint w) (calls w)).
  assert (reads_on w w1) as Hw1 by (unfold reads_on; rewrite Es; by exists [line]).
  destruct (dispatch listdir root (strip line) w1) as [[[n|e] w2] l2] eqn:Ed;
    destruct (dispatch_cases _ _ _ _ _ _ Ed) as (Hr & Hl & Hn & Hb).
  - destruct n.
    + destruct (command_loop listdir fuel root w2) as [[[r3 w3] l3]|] eqn:El;
        [|done].
      intros [= <- <- <-]. apply IH in El as (Hr3 & Hl3 & He3 & Hn3).
      split; [unfold reads_on in *; by do 2 (etrans; [|eassumption])|].
      split; [|split].
      * constructor; [done|]. apply Forall_app. split; [|done].
        apply (Forall_impl _ _ _ Hl). by intros e0 [? _].
      * intros Hok. destruct (He3 Hok) as (l0 & line0 & -> & Hexit).
        exists ([Typed line] ++ l2 ++ l0), line0. by rewrite <- !app_assoc.
      * intros [Hline Hrest]%Forall_cons. destruct (Hn Hline) as [-> Hf2].
        destruct (Hn3 Hrest) as (Hf & Hc & Hf3). split; [done|]. split; [done|].
        change (flow_events (l2 ++ l3) = []).
        by rewrite flow_events_app, Hf2, Hf3.
    + intros [= <- <- <-]. destruct (Hb eq_refl) as [Hexit ->].
      split; [unfold reads_on in *; by etrans|].
      split; [by repeat constructor|]. split.
      * intros _. by exists [], line.
      * intros [Hline _]%Forall_cons. by destruct (Hn Hline) as [-> _].
  - intros [= <- <- <-]. split; [unfold reads_on in *; by etrans|].
    split; [|split; [done|]].
    + constructor; [done|]. apply (Forall_impl _ _ _ Hl). by intros e0 [? _].
    + intros [Hline _]%Forall_cons. destruct (Hn Hline) as [-> Hf2].
      by repeat split.
Qed.

Lemma typed_app l1 l2 : typed (l1 ++ l2) = typed l1 ++ typed l2.
Proof. apply omap_app. Qed.

Lemma typed_none l :
  Forall (fun e => e <> Said UsageLine /\ forall a, e <> Typed a) l -> typed l = [].
Proof.
  induction 1 as [|e l [_ He] _ IH]; [done|].
  destruct e as [a| |]; [by destruct (He a)|exact IH..].
Qed.

(** An idle line is answered and the loop goes on, the world as it was. *)
Lemma dispatch_idle root line w :
  idle line ->
  exists l, dispatch listdir root (strip line) w = (Ok Continue, w, l)
            /\ typed l = [].
Proof.
  intros (Hu & Hexit & Hls). unfold no_update in Hu. unfold dispatch.
  destruct (bool_decide (strip line = [])); [by eexists|].
  destruct (Py.eqb (strip line) (lit "exit")) eqn:E1;
    [by apply bool_decide_eq_true in E1|].
  destruct (Py.eqb (strip line) (lit "ls")) eqn:E2;
    [by apply bool_decide_eq_true in E2|].
  destruct (Py.eqb (strip line) (lit "update resume")) eqn:E3;
    [apply bool_decide_eq_true in E3; by rewrite E3 in Hu|].
  rewrite Hu. by eexists.
Qed.

(** How a run of the loop is left by an exception: by that of the
    prompt at the end of the input, or by that of its last command. *)
Lemma command_loop_raise fuel root w r w' l :
  command_loop listdir fuel root w = Some (r, w', l) ->
  (forall e, r = Raise e ->
     (e = EOFError /\ stdin w' = [])
     \/ (exists l0 line w1 l2,
           l = l0 ++ Typed line :: l2
           /\ dispatch listdir root (strip line) w1 = (Raise e, w', l2)))
  /\ (Forall idle (stdin w) ->
      r = Raise EOFError /\ stdin w' = [] /\ typed l = stdin w).
Proof.
  revert w r w' l. induction fuel as [|fuel IH]; intros w r w' l; [done|].
  cbn [command_loop]. rewrite read_command_run.
  destruct (stdin w) as [|line rest] eqn:Es.
  { intros [= <- <- <-]. split; [intros e [= <-]; by left|by intros _]. }
  set (w1 := World (files w) rest (api_key w) (endpoint w) (calls w)).
  destruct (dispatch listdir root (strip line) w1) as [[[n|e] w2] l2] eqn:Ed.
  - destruct n.
    + destruct (command_loop listdir fuel root w2) as [[[r3 w3] l3]|] eqn:El;
        [|done].
      intros [= <- <- <-]. destruct (IH _ _ _ _ El) as [Hraise Hidle]. split.
      * intros e0 He0.
        destruct (Hraise e0 He0) as [?|(l0 & line0 & w0 & l4 & -> & Hd)];
          [by left|].
        right. exists ([Typed line] ++ l2 ++ l0), line0, w0, l4.
        by rewrite <- !app_assoc.
      * intros [Hline Hrest]%Forall_cons.
        destruct (dispatch_idle root line w1 Hline) as (l2' & Ed' & Ht).
        rewrite Ed in Ed'. injection Ed' as Hw2 Hl2. subst w2 l2.
        destruct (Hidle Hrest) as (-> & Hs & Ht3). split; [done|]. split; [done|].
        change (line :: typed (l2' ++ l3) = line :: rest).
        by rewrite typed_app, Ht, Ht3.
    + intros [= <- <- <-]. split; [done|].
      intros [Hline _]%Forall_cons.
      destruct (dispatch_idle root line w1 Hline) as (l2' & Ed' & _).
      rewrite Ed in Ed'. done.
  - intros [= <- <- <-]. split.
    + intros e0 [= <-]. right. by exists [], line, w1, l2.
    + intros [Hline _]%Forall_cons.
      destruct (dispatch_idle root line w1 Hline) as (l2' & Ed' & _).
      rewrite Ed in Ed'. done.
Qed.

(** One more than the lines there are is fuel enough. *)
Lemma command_loop_returns fuel root w :
  (length (stdin w) < fuel)%nat ->
  exists r w' l, command_loop listdir fuel root w = Some (r, w', l).
Proof.
  revert w. induction fuel as [|fuel IH]; intros w Hf; [lia|].
  cbn [command_loop]. rewrite read_command_run.
  destruct (stdin w) as [|line rest] eqn:Es; [by eexists _, _, _|].
  destruct (dispatch listdir root (strip line) _) as [[[n|e] w2] l2] eqn:Ed;
    [|by eexists _, _, _].
  destruct n; [|by eexists _, _, _].
  apply dispatch_cases in Ed as ([k Hk] & _). simpl in Hk, Hf.
  destruct (IH w2) as (r3 & w3 & l3 & ->); [|by eexists _, _, _].
  apply (f_equal length) in Hk. rewrite length_app in Hk. lia.
Qed.

(** X26. The command loop always comes to an end, reading the
    operator's lines in order.  It returns only after a line that is
    [exit] once stripped.  Otherwise it is left by an exception: the
    [EOFError] of its prompt when no line is left, or the exception its
    last command raised.  On lines that are all idle it reads every line
    and ends with that [EOFError]. *)
Theorem command_loop_comes_to_an_end root w :
  exists r w' l,
    interactive_agent listdir root w = Some (r, w', l)
    /\ stdin w' `suffix_of` stdin w
    /\ (r = Ok tt ->
        exists l0 line, l = l0 ++ [Typed line] /\ strip line = lit "exit")
    /\ (forall e, r = Raise e ->
        (e = EOFError /\ stdin w' = [])
        \/ (exists l0 line w1 l2,
              l = l0 ++ Typed line :: l2
              /\ dispatch listdir root (strip line) w1 = (Raise e, w', l2)))
    /\ (Forall idle (stdin w) ->
        r = Raise EOFError /\ stdin w' = [] /\ typed l = stdin w).
Proof.
  unfold interactive_agent.
  destruct (command_loop_returns (S (length (stdin w))) root w) as (r & w' & l & E);
    [lia|].
  rewrite E. exists r, w', (banner root ++ l). split; [done|].
  destruct (command_loop_raise _ _ _ _ _ _ E) as [Hraise Hidle].
  apply command_loop_spec in E as (Hr & _ & He & _). split; [done|].
  split; [|split].
  - intros Hok. destruct (He Hok) as (l0 & line & -> & Hexit).
    exists (banner root ++ l0), line. by rewrite <- app_assoc.
  - intros e He0.
    destruct (Hraise e He0) as [?|(l0 & line & w1 & l2 & -> & Hd)]; [by left|].
    right. exists (banner root ++ l0), line, w1, l2. by rewrite <- app_assoc.
  - intros Hi. destruct (Hidle Hi) as (? & ? & ?). by repeat split.
Qed.

(** X27. The usage line of line 367 is never printed: a stripped line
    that begins with [update] and a space has a second word. *)
Theorem usage_line_is_never_printed root w r w' l :
  interactive_agent listdir root w = Some (r, w', l) ->
  Said UsageLine ∉ l.
Proof.
  unfold interactive_agent.
  destruct (command_loop _ _ _ _) as [[[r0 w0] l0]|] eqn:E; [|done].
  intros [= _ _ <-]. apply command_loop_spec in E as (_ & Hl & _).
  intros Hin. do 6 (apply elem_of_cons in Hin as [Hin|Hin]; [done|]).
  by apply (proj1 (Forall_forall _ _) Hl) in Hin.
Qed.

(** X28. A line that begins, once stripped, with [update] and a space,
    and is not the shortcut, runs the flow on what follows, with the
    white space between the two dropped; the path is never empty. *)
Theorem update_command_runs_the_flow root line w :
  startswith (lit "update ") (strip line) = true ->
  strip line <> lit "update resume" ->
  dispatch listdir root (strip line) w
  = run_flow root (lstrip (drop 7 (strip line))) w
  /\ lstrip (drop 7 (strip line)) <> [].
Proof.
  intros Hu Hnr. destruct (startswith_split _ _ Hu) as [t Et].
  destruct (split1_update line t Et) as [Hs Hne].
  unfold dispatch. rewrite Hs.
  replace (Py.eqb (strip line) (lit "update resume")) with false
    by (symmetry; by apply bool_decide_eq_false).
  rewrite Hu, Et. by split.
Qed.

(** X29. Lines that do not begin with [update] and a space once
    stripped change nothing: a run of the loop on such lines leaves every file as it
    was, does not call the endpoint and does not enter the update
    flow. *)
Theorem other_commands_change_nothing root w r w' l :
  interactive_agent listdir root w = Some (r, w', l) ->
  Forall no_update (stdin w) ->
  files w' = files w /\ calls w' = calls w /\ flow_events l = [].
Proof.
  unfold interactive_agent.
  destruct (command_loop _ _ _ _) as [[[r0 w0] l0]|] eqn:E; [|done].
  intros [= _ <- <-] Hn. apply command_loop_spec in E as (_ & _ & _ & Hf).
  destruct (Hf Hn) as (? & ? & ?). by repeat split.
Qed.

End ShellProofs.

(* ===================================================================== *)
(** ** The request *)
(* ===================================================================== *)

Lemma startswith_app sub t : startswith sub (sub ++ t) = true.
Proof. induction sub as [|c sub IH]; simpl; [done|]. by rewrite N.eqb_refl. Qed.

Lemma find_from_skip a sub t i :
  0 <= i -> startswith sub t = true -> find_from sub (a ++ t) i <> -1.
Proof.
  intros Hi Hs. revert i Hi. induction a as [|c a IH]; intros i Hi; simpl.
  - destruct t; simpl; rewrite Hs; lia.
  - destruct (startswith sub (c :: a ++ t)); [lia|]. apply IH. lia.
Qed.

Lemma contains_infix a sub b : contains sub (a ++ sub ++ b) = true.
Proof.
  unfold contains, find. apply negb_true_iff, Z.eqb_neq.
  apply find_from_skip; [done|]. apply startswith_app.
Qed.

(** X30. The request has two messages, the fixed system prompt and a
    user message whose content holds the whole PDF text, the path and the
    whole page, each untruncated and in that order. *)
Theorem request_carries_both_texts html_path html_content pdf_text :
  exists content,
    build_resume_update_messages html_path html_content pdf_text
    = [[(lit "role", lit "system"); (lit "content", system_prompt)];
       [(lit "role", lit "user"); (lit "content", content)]]
    /\ (exists a b c d,
         content = a ++ pdf_text ++ b ++ html_path ++ c ++ html_content ++ d)
    /\ contains pdf_text content = true
    /\ contains html_path content = true
    /\ contains html_content content = true.
Proof.
  eexists. split; [reflexivity|]. split; [by eexists _, _, _, _|].
  split; [apply contains_infix|]. split.
  - rewrite !(app_assoc _ _ (html_path ++ _)). apply contains_infix.
  - rewrite !(app_assoc _ _ (html_content ++ _)). apply contains_infix.
Qed.

Lemma usage_line_is_never_printed_witness :
  Said UsageLine ∉ Booth.idle_log.
Proof.
  apply (usage_line_is_never_printed Booth.listing root
           (world_of disk Booth.idle_lines (answering new_page))
           (Ok tt) (world_of disk [] (answering new_page))).
  vm_compute. reflexivity.
Defined.

Lemma update_command_runs_the_flow_witness :
  let line := lit "  update   resume.html " in
  let w := world_of disk [lit "n"] (answering new_page) in
  dispatch Booth.listing root (strip line) w
  = run_flow root (lstrip (drop 7 (strip line))) w
  /\ lstrip (drop 7 (strip line)) <> [].
Proof.
  apply update_command_runs_the_flow.
  - vm_compute. reflexivity.
  - vm_compute. discriminate.
Defined.

Lemma other_commands_change_nothing_witness :
  let w := world_of disk Booth.idle_lines (answering new_page) in
  let w' := world_of disk [] (answering new_page) in
  files w' = files w /\ calls w' = calls w /\ flow_events Booth.idle_log = [].
Proof.
  apply (other_commands_change_nothing Booth.listing root _ (Ok tt)).
  - vm_compute. reflexivity.
  - repeat (constructor; [vm_compute; reflexivity|]). constructor.
Defined.

(** The loop on a single unknown command: the prompt finds no second
    line. *)
Example end_of_input_raises_eof :
  interactive_agent Booth.listing root
    (world_of disk [lit "help"] (answering new_page))
  = Some (Raise EOFError, world_of disk [] (answering new_page),
          banner root ++ [Typed (lit "help"); Said UnknownCommand]).
Proof. vm_compute. reflexivity. Qed.
